(** * The tag subsystem of libgit2 (src/tag.c): parsing, creation, deletion
      and enumeration of tags, embedded as Rocq functions.

    Conventions of the embedding.
    - A C buffer [buffer .. buffer_end) is the list of its bytes; advancing
      [buffer] drops a prefix, and a pointer comparison such as
      [buffer + 5 >= buffer_end] is a comparison on the remaining length.
    - A C string is the list of its bytes before the terminating NUL; a
      pointer that may be NULL is an [option].
    - A function returning an [int] error code and recording an error with
      [giterr_set] returns a [git_result]: [Success] for 0, [Failure code e]
      for a non-zero code, [e] being the error left in the error slot.
    - The repository is passed explicitly and returned when it may change.
    - Memory allocation is assumed to succeed: [git__malloc], and the
      [git_buf] and [git_vector] calls whose negative result tag.c tests
      ([git_buf_joinpath], [git_buf_puts], [git_vector_init],
      [git_vector_insert]) always succeed here.
    - What an out-parameter holds after a failing call is not part of the
      embedding, except for the record that [tag_parse] fills. *)

From stdpp Require Import gmap strings list.
From Stdlib Require Import ZArith Ascii.

Open Scope Z_scope.

(** ** Bytes, strings and error values *)

Abbreviation bytes := (list ascii).

Definition cstr (s : string) : bytes := String.list_ascii_of_string s.

Definition LF : ascii := ascii_of_nat 10.

(** The error classes used by tag.c and by the stores ([git2/errors.h]). *)
Inductive git_error_t :=
  | GITERR_INVALID
  | GITERR_REFERENCE
  | GITERR_ODB
  | GITERR_OBJECT
  | GITERR_TAG
  | GITERR_CALLBACK.

(** What [giterr_set (klass, message)] leaves in the error slot. *)
Record git_error := giterr_set {
  error_class : git_error_t;
  error_message : string
}.

Inductive git_result (A : Type) :=
  | Success (a : A)
  | Failure (code : Z) (e : git_error).
Arguments Success {A} a.
Arguments Failure {A} code e.

Definition is_success {A} (r : git_result A) : bool :=
  match r with Success _ => true | Failure _ _ => false end.

(** Modelled from the spec: the error codes behind "NotFound" and
    "AlreadyExists", constants of [git2/errors.h] that tag.c compares and
    returns; it only needs them to be distinct negative numbers. *)
Definition GIT_ENOTFOUND : Z := -3.
Definition GIT_EEXISTS : Z := -4.

(** Modelled from the spec: the [git_otype] values, an "enum over {Commit,
    Tree, Blob, Tag}" declared outside tag.c. [tag_parse] stores the index
    [i] of the matched entry of its table [tag_types] in [tag->type], so
    commit, tree, blob and tag are 1, 2, 3 and 4; [GIT_OBJ_BAD] is the value
    outside that range that marks "no type yet". *)
Definition GIT_OBJ_BAD : Z := -1.
Definition GIT_OBJ_COMMIT : Z := 1.
Definition GIT_OBJ_TREE : Z := 2.
Definition GIT_OBJ_BLOB : Z := 3.
Definition GIT_OBJ_TAG : Z := 4.

(** Modelled from the spec: [git_object_type2string], which is not part of
    tag.c. "Type name strings are the lowercase literals" commit, tree, blob
    and tag; any other type has no name here. *)
Definition git_object_type2string (type : Z) : bytes :=
  if decide (type = GIT_OBJ_COMMIT) then cstr "commit"
  else if decide (type = GIT_OBJ_TREE) then cstr "tree"
  else if decide (type = GIT_OBJ_BLOB) then cstr "blob"
  else if decide (type = GIT_OBJ_TAG) then cstr "tag"
  else [].

(** [memchr (buffer, c, len)]: offset of the first [c] in the buffer. *)
Fixpoint memchr (c : ascii) (buffer : bytes) : option nat :=
  match buffer with
  | [] => None
  | x :: rest => if decide (x = c) then Some O else S <$> memchr c rest
  end.

Definition NUL : ascii := ascii_of_nat 0.

(** What a reader of a [char *] gets of the bytes stored behind it
    ([strlen], the [%s] of [git_buf_printf], [git_buf_puts]): the bytes
    before the first NUL. *)
Definition c_string (b : bytes) : bytes :=
  match memchr NUL b with
  | Some n => take n b
  | None => b
  end.

(** Modelled from the spec: [git__prefixcmp (str, prefix)] of util.c, not
    part of tag.c: 0 exactly when [str] starts with [prefix], otherwise the
    difference of the first bytes that differ (a missing byte counts as the
    terminating NUL). *)
Fixpoint git__prefixcmp (str prefix : bytes) {struct prefix} : Z :=
  match prefix with
  | [] => 0
  | p :: prefix' =>
      match str with
      | [] => 0 - Z.of_nat (nat_of_ascii p)
      | s :: str' =>
          if decide (s = p) then git__prefixcmp str' prefix'
          else Z.of_nat (nat_of_ascii s) - Z.of_nat (nat_of_ascii p)
      end
  end.

Definition GIT_REFS_TAGS_DIR : bytes := cstr "refs/tags/".
Definition GIT_REFS_TAGS_DIR_LEN : nat := length GIT_REFS_TAGS_DIR.

(** Modelled from the spec: [git_buf_joinpath (out, a, b)] for a directory
    [a] that ends with a slash: "path = refs/tags/ + name". *)
Definition git_buf_joinpath (a b : bytes) : bytes := a ++ b.

(** ** The collaborators of tag.c

    The object database, the reference store and the object-id, signature
    and glob primitives are not part of tag.c. The code is embedded over
    their interface. *)
Class Collaborators := {
  git_oid : Type;
  git_signature : Type;
  git_odb : Type;
  git_odb_stream : Type;
  git_refdb : Type;
  git_reference : Type;

  (** the all-zero object id that [memset (&tag, 0, sizeof tag)] leaves *)
  git_oid_zero : git_oid;

  (** [git_oid__parse (&oid, &buffer, buffer_end, header)]: the contents of
      [oid] after the call, and the advanced buffer when it returns 0 *)
  git_oid__parse : git_oid → bytes → bytes → git_oid * option bytes;
  (** [git_oid__writebuf (buf, header, oid)]: the bytes appended *)
  git_oid__writebuf : bytes → git_oid → bytes;

  (** [git_signature__parse (sig, &buffer, buffer_end, header, ender)]: the
      contents of [sig] after the call, with the advanced buffer when it
      returns 0 and the error it recorded otherwise *)
  git_signature__parse :
    bytes → bytes → ascii → git_signature * (git_error + bytes);
  (** [git_signature__writebuf (buf, header, sig)]: the bytes appended *)
  git_signature__writebuf : bytes → git_signature → bytes;

  (** [git_odb_read (&obj, odb, id)]: the type and the data of the object *)
  git_odb_read : git_odb → git_oid → git_result (Z * bytes);
  (** [git_odb_write (&oid, odb, data, len, type)] *)
  git_odb_write : git_odb → bytes → Z → git_odb * git_result git_oid;
  (** [git_odb_open_wstream (&stream, odb, size, type)] *)
  git_odb_open_wstream : git_odb → nat → Z → git_result git_odb_stream;
  (** [git_odb_stream_write (stream, buffer, len)] *)
  git_odb_stream_write : git_odb_stream → bytes → git_odb_stream;
  (** [git_odb_stream_finalize_write (&oid, stream)] *)
  git_odb_stream_finalize_write :
    git_odb → git_odb_stream → git_odb * git_result git_oid;

  (** [git_reference_lookup (&ref, repo, name)] *)
  git_reference_lookup : git_refdb → bytes → git_result git_reference;
  (** [git_reference_name_to_id (&oid, repo, name)] *)
  git_reference_name_to_id : git_refdb → bytes → git_result git_oid;
  (** [git_reference_create (&ref, repo, name, oid, force)] *)
  git_reference_create :
    git_refdb → bytes → git_oid → bool → git_refdb * git_result unit;
  (** [git_reference_delete (ref)] *)
  git_reference_delete :
    git_refdb → git_reference → git_refdb * git_result unit;
  (** the names that the iterator behind [git_reference_foreach_name]
      yields, or the error that stops it *)
  git_reference_names : git_refdb → git_result (list bytes);

  (** [p_fnmatch (pattern, string, flags)]: 0 on a match *)
  p_fnmatch : bytes → bytes → Z → Z
}.

Section Tag.
Context `{Collaborators}.

(** ** Data *)

(** [struct git_tag] (tag.h): the fields tag.c reads and writes. *)
Record git_tag := Build_git_tag {
  target : git_oid;
  type : Z;
  tag_name : option bytes;
  tagger : option git_signature;
  message : option bytes
}.

Definition set_target (v : git_oid) (t : git_tag) : git_tag :=
  Build_git_tag v (type t) (tag_name t) (tagger t) (message t).
Definition set_type (v : Z) (t : git_tag) : git_tag :=
  Build_git_tag (target t) v (tag_name t) (tagger t) (message t).
Definition set_tag_name (v : option bytes) (t : git_tag) : git_tag :=
  Build_git_tag (target t) (type t) v (tagger t) (message t).
Definition set_tagger (v : option git_signature) (t : git_tag) : git_tag :=
  Build_git_tag (target t) (type t) (tag_name t) v (message t).
Definition set_message (v : option bytes) (t : git_tag) : git_tag :=
  Build_git_tag (target t) (type t) (tag_name t) (tagger t) v.

(** [memset (&tag, 0, sizeof (tag))] *)
Definition git_tag_zero : git_tag :=
  Build_git_tag git_oid_zero 0 None None None.

(** Modelled from the spec: a [git_object] as tag.c sees a target through
    [git_object_id], [git_object_type] and [git_object_owner]: its id, its
    type and the repository that owns it. *)
Record git_object := Build_git_object {
  git_object_id : git_oid;
  git_object_type : Z;
  git_object_owner : nat
}.

(** Modelled from the spec: a repository, the two stores the subsystem
    calls: its identity (the pointer compared with an object's owner), its
    object database as [git_repository_odb__weakptr] yields it, and its
    reference store. *)
Record git_repository := Build_git_repository {
  repo_addr : nat;
  repo_odb : git_result git_odb;
  repo_refdb : git_refdb
}.

(** Modelled from the spec: [git_repository_odb__weakptr], not part of
    tag.c: the object database of the repository, or the error of opening
    it. *)
Definition git_repository_odb__weakptr (repo : git_repository)
  : git_result git_odb := repo_odb repo.

Definition with_odb (odb : git_odb) (repo : git_repository) : git_repository :=
  Build_git_repository (repo_addr repo) (Success odb) (repo_refdb repo).
Definition with_refdb (refs : git_refdb) (repo : git_repository)
  : git_repository :=
  Build_git_repository (repo_addr repo) (repo_odb repo) refs.

(** ** Accessors (tag.c 33-60) *)

Definition git_tag_target_id (t : git_tag) : git_oid := target t.
Definition git_tag_target_type (t : git_tag) : Z := type t.
Definition git_tag_name (t : git_tag) : option bytes := tag_name t.
Definition git_tag_tagger (t : git_tag) : option git_signature := tagger t.
Definition git_tag_message (t : git_tag) : option bytes := message t.

(** ** The parser (tag.c 62-149) *)

Definition tag_error {A} (str : string) : git_result A :=
  Failure (-1) (giterr_set GITERR_TAG ("Failed to parse tag. " +:+ str)).

(** The table [tag_types] with the index of each entry. *)
Definition tag_types : list (Z * bytes) :=
  [ (1, cstr "commit" ++ [LF]); (2, cstr "tree" ++ [LF]);
    (3, cstr "blob" ++ [LF]); (4, cstr "tag" ++ [LF]) ].

(** A part of [tag_parse]: it updates the record and either fails or leaves
    the buffer advanced. *)
Definition parse_step : Type := git_tag → bytes → git_tag * git_result bytes.

Definition and_then (p q : parse_step) : parse_step := λ tag buffer,
  match p tag buffer with
  | (tag', Success buffer') => q tag' buffer'
  | (tag', Failure code e) => (tag', Failure code e)
  end.

(** Lines 78-79: the object line. *)
Definition parse_object_field : parse_step := λ tag buffer,
  let '(oid, r) := git_oid__parse (target tag) buffer (cstr "object ") in
  match r with
  | None => (set_target oid tag, tag_error "Object field invalid")
  | Some buffer' => (set_target oid tag, Success buffer')
  end.

(** Lines 90-101: the loop over [tag_types], entered with [tag->type] set
    to [GIT_OBJ_BAD]. *)
Fixpoint match_tag_type (entries : list (Z * bytes)) : parse_step :=
  λ tag buffer,
  match entries with
  | [] => (tag, Success buffer)
  | (i, name) :: entries' =>
      let type_length := length name in
      if decide (length buffer ≤ type_length)%nat
      then (tag, tag_error "Object too short")
      else if decide (take type_length buffer = name)
      then (set_type i tag, Success (drop type_length buffer))
      else match_tag_type entries' tag buffer
  end.

(** Lines 81-104: the type line. *)
Definition parse_type_field : parse_step := λ tag buffer,
  if decide (length buffer ≤ 5)%nat
  then (tag, tag_error "Object too short")
  else if decide (take 5 buffer ≠ cstr "type ")
  then (tag, tag_error "Type field not found")
  else
    match match_tag_type tag_types (set_type GIT_OBJ_BAD tag) (drop 5 buffer) with
    | (tag', Success buffer') =>
        if decide (type tag' = GIT_OBJ_BAD)
        then (tag', tag_error "Invalid object type")
        else (tag', Success buffer')
    | failed => failed
    end.

(** Lines 106-125: the tag name line. *)
Definition parse_tag_field : parse_step := λ tag buffer,
  if decide (length buffer ≤ 4)%nat
  then (tag, tag_error "Object too short")
  else if decide (take 4 buffer ≠ cstr "tag ")
  then (tag, tag_error "Tag field not found")
  else
    let buffer := drop 4 buffer in
    match memchr LF buffer with
    | None => (tag, tag_error "Object too short")
    | Some text_len =>
        (set_tag_name (Some (take text_len buffer)) tag,
         Success (drop (S text_len) buffer))
    end.

(** Lines 127-133: the optional tagger line. *)
Definition parse_tagger_field : parse_step := λ tag buffer,
  let tag := set_tagger None tag in
  match buffer with
  | c :: _ =>
      if decide (c ≠ LF) then
        let '(sig, r) := git_signature__parse buffer (cstr "tagger ") LF in
        match r with
        | inl e => (set_tagger (Some sig) tag, Failure (-1) e)
        | inr buffer' => (set_tagger (Some sig) tag, Success buffer')
        end
      else (tag, Success buffer)
  | [] => (tag, Success buffer)
  end.

(** Lines 135-146: the message. *)
Definition parse_message_field : parse_step := λ tag buffer,
  let tag := set_message None tag in
  match buffer with
  | c :: text =>
      if decide (c ≠ LF)
      then (tag, tag_error "No new line before message")
      else (set_message (Some text) tag, Success [])
  | [] => (tag, Success [])
  end.

(** The object, type and tag lines (lines 78-125). *)
Definition parse_header : parse_step :=
  and_then parse_object_field (and_then parse_type_field parse_tag_field).

(** [tag_parse (tag, buffer, buffer_end)] *)
Definition tag_parse (tag : git_tag) (buffer : bytes)
  : git_tag * git_result unit :=
  match and_then parse_header
          (and_then parse_tagger_field parse_message_field) tag buffer with
  | (tag', Success _) => (tag', Success ())
  | (tag', Failure code e) => (tag', Failure code e)
  end.

(** [git_tag__parse (tag, odb_obj)] (lines 151-158) *)
Definition git_tag__parse (tag : git_tag) (odb_obj : Z * bytes)
  : git_tag * git_result unit :=
  tag_parse tag (snd odb_obj).

(** The five fields of a tag object, in the order [tag_parse] reads them. *)
Inductive parse_field :=
  | ObjectField
  | TypeField
  | TagField
  | TaggerField
  | MessageSeparator.

(** The field at which [tag_parse] gives up on a buffer, if any. *)
Definition failing_field (tag : git_tag) (buffer : bytes) : option parse_field :=
  match parse_object_field tag buffer with
  | (_, Failure _ _) => Some ObjectField
  | (tag, Success buffer) =>
  match parse_type_field tag buffer with
  | (_, Failure _ _) => Some TypeField
  | (tag, Success buffer) =>
  match parse_tag_field tag buffer with
  | (_, Failure _ _) => Some TagField
  | (tag, Success buffer) =>
  match parse_tagger_field tag buffer with
  | (_, Failure _ _) => Some TaggerField
  | (tag, Success buffer) =>
  match parse_message_field tag buffer with
  | (_, Failure _ _) => Some MessageSeparator
  | (_, Success _) => None
  end end end end end.


(** ** Reference lookup (tag.c 160-193) *)

(** [retrieve_tag_reference]: the reference name built in [ref_name_out]
    and the reference found. *)
Definition retrieve_tag_reference (repo : git_repository) (tag_name : bytes)
  : bytes * git_result git_reference :=
  let ref_name_out := git_buf_joinpath GIT_REFS_TAGS_DIR tag_name in
  (ref_name_out, git_reference_lookup (repo_refdb repo) ref_name_out).

(** [retrieve_tag_reference_oid]: the reference name built in
    [ref_name_out] and the id the reference resolves to. *)
Definition retrieve_tag_reference_oid (repo : git_repository) (tag_name : bytes)
  : bytes * git_result git_oid :=
  let ref_name_out := git_buf_joinpath GIT_REFS_TAGS_DIR tag_name in
  (ref_name_out, git_reference_name_to_id (repo_refdb repo) ref_name_out).

(** ** The serializer (tag.c 195-228) *)

(** Lines 206-212: the buffer [tag] that [write_tag_annotation] builds.
    [tag_name] and [message] are the caller's C strings, which [%s] and
    [git_buf_puts] print whole. *)
Definition tag_annotation_buffer (tag_name : bytes) (target : git_object)
    (tagger : git_signature) (message : bytes) : bytes :=
  git_oid__writebuf (cstr "object ") (git_object_id target)
  ++ (cstr "type " ++ git_object_type2string (git_object_type target) ++ [LF])
  ++ (cstr "tag " ++ tag_name ++ [LF])
  ++ git_signature__writebuf (cstr "tagger ") tagger
  ++ [LF]
  ++ message.

Definition annotation_error : git_error :=
  giterr_set GITERR_OBJECT "Failed to create tag annotation.".

Definition write_tag_annotation (repo : git_repository) (tag_name : bytes)
    (target : git_object) (tagger : git_signature) (message : bytes)
  : git_repository * git_result git_oid :=
  let tag := tag_annotation_buffer tag_name target tagger message in
  match git_repository_odb__weakptr repo with
  | Failure _ _ => (repo, Failure (-1) annotation_error)
  | Success odb =>
      match git_odb_write odb tag GIT_OBJ_TAG with
      | (odb', Success oid) => (with_odb odb' repo, Success oid)
      | (odb', Failure _ _) => (with_odb odb' repo, Failure (-1) annotation_error)
      end
  end.

(** ** Creation (tag.c 230-389) *)

(** [git_tag_create__internal]. The arguments [tagger], [message] and
    [create_tag_annotation] are one [option]: the function asserts
    [!create_tag_annotation || (tagger && message)], its callers pass either
    a tagger and a message with the flag set, or NULL, NULL and 0. *)
Definition git_tag_create__internal (repo : git_repository) (tag_name : bytes)
    (target : git_object) (annotation : option (git_signature * bytes))
    (allow_ref_overwrite : bool)
  : git_repository * git_result git_oid :=
  if decide (git_object_owner target ≠ repo_addr repo) then
    (repo, Failure (-1) (giterr_set GITERR_INVALID
             "The given target does not belong to this repository"))
  else
    let '(ref_name, found) := retrieve_tag_reference_oid repo tag_name in
    let stop :=
      match found with
      | Failure code e =>
          if decide (code ≠ GIT_ENOTFOUND) then Some (Failure code e) else None
      | Success _ =>
          if allow_ref_overwrite then None
          else Some (Failure GIT_EEXISTS
                       (giterr_set GITERR_TAG "Tag already exists"))
      end in
    match stop with
    | Some failure => (repo, failure)
    | None =>
        let '(repo, written) :=
          match annotation with
          | Some (tagger, message) =>
              write_tag_annotation repo tag_name target tagger message
          | None => (repo, Success (git_object_id target))
          end in
        match written with
        | Failure _ e => (repo, Failure (-1) e)
        | Success oid =>
            let '(refs, error) :=
              git_reference_create (repo_refdb repo) ref_name oid
                allow_ref_overwrite in
            (with_refdb refs repo,
             match error with
             | Success _ => Success oid
             | Failure code e => Failure code e
             end)
        end
    end.

Definition git_tag_create (repo : git_repository) (tag_name : bytes)
    (target : git_object) (tagger : git_signature) (message : bytes)
    (allow_ref_overwrite : bool) : git_repository * git_result git_oid :=
  git_tag_create__internal repo tag_name target (Some (tagger, message))
    allow_ref_overwrite.

Definition git_tag_annotation_create (repo : git_repository) (tag_name : bytes)
    (target : git_object) (tagger : git_signature) (message : bytes)
  : git_repository * git_result git_oid :=
  write_tag_annotation repo tag_name target tagger message.

Definition git_tag_create_lightweight (repo : git_repository)
    (tag_name : bytes) (target : git_object) (allow_ref_overwrite : bool)
  : git_repository * git_result git_oid :=
  git_tag_create__internal repo tag_name target None allow_ref_overwrite.

Definition target_type_error : git_error :=
  giterr_set GITERR_TAG "The type for the given target is invalid".

(** [git_tag_create_frombuffer]. [buffer] is a C string, [strlen (buffer)]
    its length. After a successful [tag_parse] the name is set; NULL is read
    as the empty name. *)
Definition git_tag_create_frombuffer (repo : git_repository) (buffer : bytes)
    (allow_ref_overwrite : bool) : git_repository * git_result git_oid :=
  match git_repository_odb__weakptr repo with
  | Failure _ e => (repo, Failure (-1) e)
  | Success odb =>
  (* validate the buffer *)
  match tag_parse git_tag_zero buffer with
  | (_, Failure _ e) => (repo, Failure (-1) e)
  | (tag, Success _) =>
  (* validate the target *)
  match git_odb_read odb (target tag) with
  | Failure _ e => (repo, Failure (-1) e)
  | Success target_obj =>
  if decide (type tag ≠ fst target_obj) then
    (repo, Failure (-1) target_type_error)
  else
  let '(ref_name, found) :=
    retrieve_tag_reference_oid repo (default [] (tag_name tag)) in
  let stop :=
    match found with
    | Failure code e =>
        if decide (code ≠ GIT_ENOTFOUND) then Some (Failure (-1) e) else None
    | Success _ =>
        if allow_ref_overwrite then None
        else Some (Failure GIT_EEXISTS
                     (giterr_set GITERR_TAG "Tag already exists"))
    end in
  match stop with
  | Some failure => (repo, failure)
  | None =>
  (* write the buffer *)
  match git_odb_open_wstream odb (length buffer) GIT_OBJ_TAG with
  | Failure _ e => (repo, Failure (-1) e)
  | Success stream =>
  let stream := git_odb_stream_write stream buffer in
  let '(odb', error) := git_odb_stream_finalize_write odb stream in
  match error with
  | Failure _ e => (with_odb odb' repo, Failure (-1) e)
  | Success oid =>
  let '(refs, error) :=
    git_reference_create (repo_refdb repo) ref_name oid allow_ref_overwrite in
  (with_refdb refs (with_odb odb' repo),
   match error with
   | Success _ => Success oid
   | Failure code e => Failure code e
   end)
  end end end end end end.

(** ** Deletion (tag.c 391-408) *)

Definition git_tag_delete (repo : git_repository) (tag_name : bytes)
  : git_repository * git_result unit :=
  let '(_, found) := retrieve_tag_reference repo tag_name in
  match found with
  | Failure code e => (repo, Failure code e)
  | Success tag_ref =>
      let '(refs, error) := git_reference_delete (repo_refdb repo) tag_ref in
      (with_refdb refs repo, error)
  end.

(** ** Enumeration (tag.c 410-497)

    The enumeration functions return the [int] itself: 0 to go on or for
    success, anything else to stop or for a failure. The callback payload
    ([void *data]) is a state [S] that the callback returns updated. *)

Definition git_tag_foreach_cb (S : Type) : Type := bytes → git_oid → S → S * Z.

(** [tags_cb (ref, data)] with [data = {repo, cb, cb_data}] *)
Definition tags_cb {S} (repo : git_repository) (cb : git_tag_foreach_cb S)
    (ref : bytes) (cb_data : S) : S * Z :=
  if decide (git__prefixcmp ref GIT_REFS_TAGS_DIR ≠ 0) then (cb_data, 0)
  else
    match git_reference_name_to_id (repo_refdb repo) ref with
    | Success oid => cb ref oid cb_data
    | Failure error _ => (cb_data, error)
    end.

(** Modelled from the spec: the loop of [git_reference_foreach_name] over
    the names it iterates; it "halts immediately" at the first callback that
    does not return 0. *)
Fixpoint foreach_name {S} (callback : bytes → S → S * Z) (names : list bytes)
    (payload : S) : S * Z :=
  match names with
  | [] => (payload, 0)
  | refname :: names' =>
      let '(payload', error) := callback refname payload in
      if decide (error ≠ 0) then (payload', error)
      else foreach_name callback names' payload'
  end.

(** Modelled from the spec: [git_reference_foreach_name] of refs.c, not part
    of tag.c: "visits every reference name, not filtered", stops at the
    first callback that does not return 0 and returns its value; a failing
    iteration returns its error code. *)
Definition git_reference_foreach_name {S} (repo : git_repository)
    (callback : bytes → S → S * Z) (payload : S) : S * Z :=
  match git_reference_names (repo_refdb repo) with
  | Failure error _ => (payload, error)
  | Success names => foreach_name callback names payload
  end.

Definition git_tag_foreach {S} (repo : git_repository)
    (cb : git_tag_foreach_cb S) (cb_data : S) : S * Z :=
  git_reference_foreach_name repo (tags_cb repo cb) cb_data.

(** [tag_filter_data]; the [git_vector] is the list of its entries. *)
Record tag_filter_data := Build_tag_filter_data {
  taglist : list bytes;
  pattern : bytes
}.

(** Modelled from the spec: [git_vector_insert] of vector.c on a vector
    without comparison function: "insertion order = enumeration order", the
    new entry goes last. *)
Definition git_vector_insert (v : list bytes) (element : bytes)
  : list bytes * Z := (v ++ [element], 0).

Definition tag_list_cb (tag_name : bytes) (oid : git_oid)
    (filter : tag_filter_data) : tag_filter_data * Z :=
  if decide (pattern filter = [] ∨
             p_fnmatch (pattern filter)
               (drop GIT_REFS_TAGS_DIR_LEN tag_name) 0 = 0)
  then
    let matched := drop GIT_REFS_TAGS_DIR_LEN tag_name in
    let '(v, error) := git_vector_insert (taglist filter) matched in
    (Build_tag_filter_data v (pattern filter), error)
  else (filter, 0).

(** [git_tag_list_match (tag_names, pattern, repo)]: the string array left
    in [tag_names] and the value returned. [git_vector_free] empties the
    vector, [git_vector_detach] hands over what it holds. *)
Definition git_tag_list_match (pattern : bytes) (repo : git_repository)
  : list bytes * Z :=
  let filter := Build_tag_filter_data [] pattern in
  let '(filter, error) := git_tag_foreach repo tag_list_cb filter in
  let taglist := if decide (error < 0) then [] else taglist filter in
  (taglist, 0).

Definition git_tag_list (repo : git_repository) : list bytes * Z :=
  git_tag_list_match [] repo.

(** The references a listing is meant to keep: those in the tags namespace
    whose short name matches the pattern, every one for the empty pattern. *)
Definition tag_matches (pattern ref : bytes) : Prop :=
  git__prefixcmp ref GIT_REFS_TAGS_DIR = 0
  ∧ (pattern = [] ∨ p_fnmatch pattern (drop GIT_REFS_TAGS_DIR_LEN ref) 0 = 0).

(** The reading of "for every set of tag references the listing returns
    every tag's short name": whatever names the reference store enumerates,
    [git_tag_list] holds a short name exactly when refs/tags/<short name>
    is among them. *)
Definition lists_every_tag (repo : git_repository) : Prop :=
  ∀ names,
    git_reference_names (repo_refdb repo) = Success names →
    ∀ short,
      short ∈ (git_tag_list repo).1 ↔ GIT_REFS_TAGS_DIR ++ short ∈ names.

End Tag.

(** * A model of the collaborators

    A reliable object store and reference store as the spec describes them,
    used to run the code on concrete repositories. *)

Definition GIT_OID_HEXSZ : nat := 40.

Definition is_hex_digit (c : ascii) : bool :=
  let n := nat_of_ascii c in
  ((48 <=? n)%nat && (n <=? 57)%nat) || ((97 <=? n)%nat && (n <=? 102)%nat).

(** Modelled from the spec: [git_oid__parse], not part of tag.c. An object
    id is kept in its hexadecimal form; the line is the header, then "a
    fixed-length hex identifier matching the store's id width", then a
    newline, and the call fails "if absent, malformed, or truncated". *)
Definition model_oid__parse (oid buffer header : bytes) : bytes * option bytes :=
  let header_len := length header in
  if decide (length buffer < header_len + GIT_OID_HEXSZ + 1)%nat then (oid, None)
  else if decide (take header_len buffer ≠ header) then (oid, None)
  else
    let hex := take GIT_OID_HEXSZ (drop header_len buffer) in
    if decide (drop (header_len + GIT_OID_HEXSZ) buffer !! O ≠ Some LF)
    then (oid, None)
    else if forallb is_hex_digit hex
    then (hex, Some (drop (header_len + GIT_OID_HEXSZ + 1) buffer))
    else (oid, None).

(** Modelled from the spec: [git_oid__writebuf], not part of tag.c: the
    header, the hexadecimal id and a newline. *)
Definition model_oid__writebuf (header oid : bytes) : bytes :=
  header ++ oid ++ [LF].

Definition model_signature_error (msg : string) : git_error :=
  giterr_set GITERR_INVALID ("Failed to parse signature - " +:+ msg).

(** Modelled from the spec: [git_signature__parse], not part of tag.c, "an
    opaque sub-parser": a signature is the text of its line, between the
    header and the ender. *)
Definition model_signature__parse (buffer header : bytes) (ender : ascii)
  : bytes * (git_error + bytes) :=
  match memchr ender buffer with
  | None => ([], inl (model_signature_error "no newline given"))
  | Some n =>
      let line := take n buffer in
      if decide (take (length header) line = header)
      then (drop (length header) line, inr (drop (S n) buffer))
      else ([], inl (model_signature_error
                       "expected prefix doesn't match actual"))
  end.

(** Modelled from the spec: [git_signature__writebuf], not part of tag.c:
    the header, the signature and a newline. *)
Definition model_signature__writebuf (header sig : bytes) : bytes :=
  header ++ sig ++ [LF].

(** Modelled from the spec: the content id under which the object store
    files an object. The model uses the type name and the data themselves,
    an injective stand-in for the hash. *)
Definition model_content_id (type : Z) (data : bytes) : bytes :=
  git_object_type2string type ++ cstr " " ++ data.

Definition model_odb_not_found : git_error :=
  giterr_set GITERR_ODB "Object not found".

(** Modelled from the spec: the object store, "read(id) -> bytes+type,
    write(bytes, type) -> id", a finite map from ids to typed contents. *)
Definition model_odb_read (odb : gmap bytes (Z * bytes)) (id : bytes)
  : git_result (Z * bytes) :=
  match odb !! id with
  | Some obj => Success obj
  | None => Failure GIT_ENOTFOUND model_odb_not_found
  end.

Definition model_odb_write (odb : gmap bytes (Z * bytes)) (data : bytes)
    (type : Z) : gmap bytes (Z * bytes) * git_result bytes :=
  let id := model_content_id type data in
  (<[id := (type, data)]> odb, Success id).

(** Modelled from the spec: a write stream, "open_write_stream(len, kind) /
    write_chunk / finalize -> id": the announced size, the type and the
    bytes written so far. *)
Definition model_odb_open_wstream (odb : gmap bytes (Z * bytes)) (size : nat)
    (type : Z) : git_result (nat * Z * bytes) :=
  Success (size, type, []).

Definition model_odb_stream_write (stream : nat * Z * bytes) (buffer : bytes)
  : nat * Z * bytes :=
  let '(size, type, data) := stream in (size, type, data ++ buffer).

Definition model_odb_stream_finalize_write (odb : gmap bytes (Z * bytes))
    (stream : nat * Z * bytes)
  : gmap bytes (Z * bytes) * git_result bytes :=
  let '(_, type, data) := stream in model_odb_write odb data type.

(** Modelled from the spec: a reference, "a named, mutable binding from a
    namespaced path to a content id", or a symbolic reference naming another
    reference. *)
Inductive model_ref :=
  | OidRef (id : bytes)
  | SymbolicRef (target : bytes).

Definition model_ref_not_found : git_error :=
  giterr_set GITERR_REFERENCE "Reference not found".

Definition MAX_NESTING_LEVEL : nat := 10.

(** Modelled from the spec: "lookup(path) -> Option<id>". *)
Definition model_reference_lookup (refs : gmap bytes model_ref) (name : bytes)
  : git_result bytes :=
  match refs !! name with
  | Some _ => Success name
  | None => Failure GIT_ENOTFOUND model_ref_not_found
  end.

Fixpoint model_resolve (nesting : nat) (refs : gmap bytes model_ref)
    (name : bytes) : git_result bytes :=
  match refs !! name with
  | None => Failure GIT_ENOTFOUND model_ref_not_found
  | Some (OidRef id) => Success id
  | Some (SymbolicRef target) =>
      match nesting with
      | O => Failure (-1) (giterr_set GITERR_REFERENCE
                             "Symbolic reference too nested")
      | S nesting' => model_resolve nesting' refs target
      end
  end.

(** Modelled from the spec: [git_reference_name_to_id], which resolves a
    reference name to an id through symbolic references. *)
Definition model_reference_name_to_id (refs : gmap bytes model_ref)
    (name : bytes) : git_result bytes :=
  model_resolve MAX_NESTING_LEVEL refs name.

(** Modelled from the spec: "create_or_update(path, id, allow_overwrite)",
    the store's own check of an existing name. *)
Definition model_reference_create (refs : gmap bytes model_ref) (name id : bytes)
    (force : bool) : gmap bytes model_ref * git_result unit :=
  match refs !! name with
  | Some _ =>
      if force then (<[name := OidRef id]> refs, Success ())
      else (refs, Failure GIT_EEXISTS
                    (giterr_set GITERR_REFERENCE
                       "A reference with that name already exists"))
  | None => (<[name := OidRef id]> refs, Success ())
  end.

(** Modelled from the spec: "unbind(path): deletes the reference; fails if
    absent". *)
Definition model_reference_delete (refs : gmap bytes model_ref) (ref : bytes)
  : gmap bytes model_ref * git_result unit :=
  match refs !! ref with
  | Some _ => (delete ref refs, Success ())
  | None => (refs, Failure GIT_ENOTFOUND model_ref_not_found)
  end.

(** Modelled from the spec: the names the reference store enumerates, in an
    order of its own. *)
Definition model_reference_names (refs : gmap bytes model_ref)
  : git_result (list bytes) :=
  Success (map_to_list refs).*1.

(** Modelled from the spec: "shell-style wildcard semantics: [*], [?],
    [[...]]". A pattern is read as a list of tokens. *)
Inductive glob_token :=
  | GlobStar
  | GlobAny
  | GlobChar (c : ascii)
  | GlobClass (negated : bool) (members : list (ascii * ascii)).

(** The members of a bracket expression, single bytes and ranges [lo-hi],
    up to the closing bracket, with the pattern that follows it; a closing
    bracket that comes first is a member. [None] when the bracket is never
    closed. *)
Fixpoint glob_class (pattern : bytes) (first : bool)
    (members : list (ascii * ascii)) : option (list (ascii * ascii) * bytes) :=
  match pattern with
  | [] => None
  | c :: rest =>
      if decide (c = "]"%char ∧ first = false) then Some (members, rest)
      else
        match rest with
        | dash :: hi :: rest' =>
            if decide (dash = "-"%char ∧ hi ≠ "]"%char)
            then glob_class rest' false ((c, hi) :: members)
            else glob_class rest false ((c, c) :: members)
        | _ => glob_class rest false ((c, c) :: members)
        end
  end.

(** The tokens of a pattern; an opening bracket that is never closed stands
    for itself. Every step reads one byte at least, so the length of the
    pattern is fuel enough. *)
Fixpoint glob_tokens (fuel : nat) (pattern : bytes) : list glob_token :=
  match fuel, pattern with
  | S fuel, c :: rest =>
      if decide (c = "*"%char) then GlobStar :: glob_tokens fuel rest
      else if decide (c = "?"%char) then GlobAny :: glob_tokens fuel rest
      else if decide (c = "["%char) then
        let '(negated, body) :=
          match rest with
          | x :: body => if decide (x = "!"%char) then (true, body)
                         else (false, rest)
          | [] => (false, rest)
          end in
        match glob_class body true [] with
        | Some (members, rest') =>
            GlobClass negated members :: glob_tokens fuel rest'
        | None => GlobChar c :: glob_tokens fuel rest
        end
      else GlobChar c :: glob_tokens fuel rest
  | _, _ => []
  end.

Definition glob_member (members : list (ascii * ascii)) (x : ascii) : bool :=
  existsb (λ range,
             (nat_of_ascii range.1 <=? nat_of_ascii x)%nat
             && (nat_of_ascii x <=? nat_of_ascii range.2)%nat) members.

(** One token against one byte. *)
Definition glob_token_match (token : glob_token) (x : ascii) : bool :=
  match token with
  | GlobStar | GlobAny => true
  | GlobChar c => bool_decide (c = x)
  | GlobClass negated members => xorb negated (glob_member members x)
  end.

Fixpoint glob_tokens_match (tokens : list glob_token) : bytes → bool :=
  match tokens with
  | [] => λ s, bool_decide (s = [])
  | GlobStar :: tokens' =>
      fix star (s : bytes) : bool :=
        glob_tokens_match tokens' s
        || match s with [] => false | _ :: s' => star s' end
  | token :: tokens' => λ s,
      match s with
      | [] => false
      | x :: s' => glob_token_match token x && glob_tokens_match tokens' s'
      end
  end.

Definition glob_match (pattern string : bytes) : bool :=
  glob_tokens_match (glob_tokens (length pattern) pattern) string.

Definition FNM_NOMATCH : Z := 1.

Definition model_fnmatch (pattern string : bytes) (flags : Z) : Z :=
  if glob_match pattern string then 0 else FNM_NOMATCH.

Definition model : Collaborators := {|
  git_oid := bytes;
  git_signature := bytes;
  git_odb := gmap bytes (Z * bytes);
  git_odb_stream := nat * Z * bytes;
  git_refdb := gmap bytes model_ref;
  git_reference := bytes;
  git_oid_zero := replicate GIT_OID_HEXSZ "0"%char;
  git_oid__parse := model_oid__parse;
  git_oid__writebuf := model_oid__writebuf;
  git_signature__parse := model_signature__parse;
  git_signature__writebuf := model_signature__writebuf;
  git_odb_read := model_odb_read;
  git_odb_write := model_odb_write;
  git_odb_open_wstream := model_odb_open_wstream;
  git_odb_stream_write := model_odb_stream_write;
  git_odb_stream_finalize_write := model_odb_stream_finalize_write;
  git_reference_lookup := model_reference_lookup;
  git_reference_name_to_id := model_reference_name_to_id;
  git_reference_create := model_reference_create;
  git_reference_delete := model_reference_delete;
  git_reference_names := model_reference_names;
  p_fnmatch := model_fnmatch
|}.

(** Sample data of the model. *)
Definition sample_id : bytes := cstr "0123456789abcdef0123456789abcdef01234567".
Definition sample_tagger : bytes := cstr "A <a@x> 0 +0000".

Definition sample_header : bytes :=
  cstr "object 0123456789abcdef0123456789abcdef01234567" ++ [LF]
  ++ cstr "type commit" ++ [LF] ++ cstr "tag v1" ++ [LF].

Definition sample_buffer : bytes :=
  sample_header ++ cstr "tagger A <a@x> 0 +0000" ++ [LF].


(** A repository of the model whose tag refs/tags/broken is a symbolic
    reference to a reference that does not exist, next to a tag refs/tags/v1
    bound to an id. *)
Definition dangling_repo : @git_repository model :=
  @Build_git_repository model 1 (Success ∅)
    (<[cstr "refs/tags/broken" := SymbolicRef (cstr "refs/heads/gone")]>
       (<[cstr "refs/tags/v1" := OidRef sample_id]> ∅)).

Definition sample_target : @git_object model :=
  @Build_git_object model sample_id GIT_OBJ_COMMIT 1.

(** A second target of the same repository, a tree. *)
Definition other_id : bytes := cstr "89abcdef0123456789abcdef0123456789abcdef".
Definition other_target : @git_object model :=
  @Build_git_object model other_id GIT_OBJ_TREE 1.

(** A repository of the model that holds a commit and a tree and has no
    reference yet. *)
Definition sample_repo : @git_repository model :=
  @Build_git_repository model 1
    (Success (<[sample_id := (GIT_OBJ_COMMIT, cstr "tree 89ab")]>
                (<[other_id := (GIT_OBJ_TREE, cstr "")]> ∅)))
    ∅.

(** The same repository when the object filed under [sample_id] is a blob,
    and when no object is filed at all. *)
Definition blob_repo : @git_repository model :=
  @Build_git_repository model 1
    (Success (<[sample_id := (GIT_OBJ_BLOB, cstr "data")]> ∅)) ∅.
Definition empty_repo : @git_repository model :=
  @Build_git_repository model 1 (Success ∅) ∅.

(** A repository of the model with three tags and a branch. *)
Definition catalog_repo : @git_repository model :=
  @Build_git_repository model 1 (Success ∅)
    (<[cstr "refs/tags/v1.0" := OidRef sample_id]>
       (<[cstr "refs/tags/v1.1" := OidRef sample_id]>
          (<[cstr "refs/tags/v2.0" := OidRef other_id]>
             (<[cstr "refs/heads/v1.9" := OidRef other_id]> ∅)))).

Definition sample_object_line : bytes :=
  cstr "object 0123456789abcdef0123456789abcdef01234567" ++ [LF].


(** A buffer without tagger line: a blank line and a message follow the
    tag line. *)
Definition plain_buffer : bytes := sample_header ++ [LF] ++ cstr "note".

(** The repository [sample_repo] once the lightweight tag v1 is bound to
    the commit. *)
Definition tagged_repo : @git_repository model :=
  (@git_tag_create_lightweight model sample_repo (cstr "v1") sample_target
     false).1.

(** A callback that records what it is shown and goes on, and one that
    stops with 7 at once. *)
Definition collect_cb : @git_tag_foreach_cb model (list (bytes * bytes)) :=
  λ ref oid seen, (seen ++ [(ref, oid)], 0).
Definition stop_cb : @git_tag_foreach_cb model (list (bytes * bytes)) :=
  λ ref oid seen, (seen, 7).

(** A tag name that holds a newline. *)
Definition newline_name : bytes := cstr "v1" ++ [LF] ++ cstr "x".

(** * Properties of the parser and of the serializer *)

(** Lengths of buffers that start with known bytes. *)
Ltac buffer_length :=
  cbn [cstr String.list_ascii_of_string];
  repeat (rewrite ?length_app, ?length_cons, ?length_nil; cbn [length app]);
  lia.

(** A concrete line holds no newline. *)
Ltac no_newline :=
  match goal with
  | |- ?P => apply (bool_decide_unpack P); vm_compute; exact I
  end.

Lemma drop_line (c : ascii) (line rest : bytes) :
  drop (S (length line)) (line ++ c :: rest) = rest.
Proof. induction line as [|x line IH]; [done|apply IH]. Qed.

Lemma memchr_app (c : ascii) (line rest : bytes) :
  c ∉ line → memchr c (line ++ c :: rest) = Some (length line).
Proof.
  induction line as [|x line IH]; intros Hnot; simpl.
  - by rewrite decide_True.
  - apply not_elem_of_cons in Hnot as [Hx Hline].
    rewrite decide_False by congruence. by rewrite IH.
Qed.

Lemma memchr_Some (c : ascii) (buffer : bytes) (n : nat) :
  memchr c buffer = Some n →
  (c ∉ take n buffer) ∧ buffer !! n = Some c ∧ (n < length buffer)%nat.
Proof.
  revert n. induction buffer as [|x buffer IH]; intros n; simpl; [done|].
  case_decide as Hx.
  - intros [= <-]. simpl. split; [apply not_elem_of_nil|]. split; [by subst|lia].
  - destruct (memchr c buffer) as [m|] eqn:Hm; simpl; [|done].
    intros [= <-]. destruct (IH m eq_refl) as (Hnot & Hlook & Hlen).
    simpl. split; [|split; [done|lia]].
    apply not_elem_of_cons. split; [congruence|done].
Qed.

Section Parser.
Context `{Collaborators}.

Lemma and_then_assoc (p q r : parse_step) tag buffer :
  and_then (and_then p q) r tag buffer = and_then p (and_then q r) tag buffer.
Proof.
  unfold and_then. destruct (p tag buffer) as [tag1 [buffer1|code e]]; [|done].
  by destruct (q tag1 buffer1) as [tag2 [buffer2|code e]].
Qed.

(** The parts of the record that each step leaves alone. *)
Lemma parse_tagger_field_frame tag buffer :
  let out := (parse_tagger_field tag buffer).1 in
  target out = target tag ∧ type out = type tag ∧ tag_name out = tag_name tag.
Proof.
  unfold parse_tagger_field. destruct buffer as [|c rest]; [done|].
  case_decide; [|done].
  destruct (git_signature__parse _ _ _) as [sig [e|rest']]; done.
Qed.

Lemma parse_message_field_frame tag buffer :
  let out := (parse_message_field tag buffer).1 in
  target out = target tag ∧ type out = type tag ∧ tag_name out = tag_name tag
  ∧ tagger out = tagger tag.
Proof.
  unfold parse_message_field. destruct buffer as [|c rest]; [done|].
  by case_decide.
Qed.

(** The tag name line of the serializer is read back as the name. *)
Lemma parse_tag_field_line tag (name rest : bytes) :
  LF ∉ name →
  parse_tag_field tag (cstr "tag " ++ name ++ LF :: rest)
  = (set_tag_name (Some name) tag, Success rest).
Proof.
  intros Hname. unfold parse_tag_field.
  rewrite decide_False by buffer_length.
  rewrite decide_False by (by intros []).
  change (drop 4 (cstr "tag " ++ name ++ LF :: rest)) with (name ++ LF :: rest).
  rewrite memchr_app by done.
  rewrite take_app_length.
  by rewrite drop_line.
Qed.

(** The type line of the serializer is read back as the type, provided at
    least four more bytes follow it (the loop compares the remaining length
    with the longest type name first). *)
Lemma parse_type_field_line tag (i : Z) (rest : bytes) :
  i ∈ [GIT_OBJ_COMMIT; GIT_OBJ_TREE; GIT_OBJ_BLOB; GIT_OBJ_TAG] →
  (4 ≤ length rest)%nat →
  parse_type_field tag (cstr "type " ++ git_object_type2string i ++ LF :: rest)
  = (set_type i tag, Success rest).
Proof.
  intros Hi Hlen. unfold parse_type_field.
  rewrite decide_False by buffer_length.
  rewrite decide_False by (intros Hne; by apply Hne).
  change (drop 5 (cstr "type " ++ ?b)) with b.
  unfold tag_types, match_tag_type.
  repeat (apply elem_of_cons in Hi as [->|Hi]); [| | | |by apply elem_of_nil in Hi].
  all: cbn [git_object_type2string].
  all: repeat match goal with
       | |- context [git_object_type2string ?i] =>
           let t := eval vm_compute in (git_object_type2string i) in
           change (git_object_type2string i) with t
       | |- context [cstr ?x] =>
           let t := eval vm_compute in (cstr x) in change (cstr x) with t
       end.
  all: cbn [app length take drop].
  all: repeat first
         [ rewrite decide_False by first [lia | by intros [=]]
         | rewrite decide_True by first [lia | done] ].
  all: done.
Qed.

(** The tagger line of the serializer is read back as the tagger. *)
Lemma parse_tagger_field_line tag (sig : git_signature) (rest : bytes) :
  (∃ line, git_signature__writebuf (cstr "tagger ") sig = cstr "tagger " ++ line) →
  git_signature__parse (git_signature__writebuf (cstr "tagger ") sig ++ rest)
    (cstr "tagger ") LF = (sig, inr rest) →
  parse_tagger_field tag (git_signature__writebuf (cstr "tagger ") sig ++ rest)
  = (set_tagger (Some sig) tag, Success rest).
Proof.
  intros [line Hline] Hparse. unfold parse_tagger_field.
  destruct (git_signature__writebuf (cstr "tagger ") sig ++ rest)
    as [|c buffer] eqn:Hbuffer.
  - by rewrite Hline in Hbuffer.
  - rewrite Hline in Hbuffer. injection Hbuffer as <- _.
    rewrite decide_True by done. by rewrite Hparse.
Qed.

Lemma tag_annotation_buffer_lines (name : bytes) (target : git_object)
    (sig : git_signature) (msg : bytes) :
  tag_annotation_buffer name target sig msg
  = git_oid__writebuf (cstr "object ") (git_object_id target)
    ++ (cstr "type " ++ git_object_type2string (git_object_type target)
        ++ LF :: (cstr "tag " ++ name
        ++ LF :: (git_signature__writebuf (cstr "tagger ") sig
        ++ LF :: msg))).
Proof.
  unfold tag_annotation_buffer. by rewrite <- !app_assoc.
Qed.

(** What a successful pass over the object, type and tag lines leaves in
    the record. *)
Lemma match_tag_type_Success entries tag buffer tag' rest :
  match_tag_type entries tag buffer = (tag', Success rest) →
  (tag' = tag ∧ rest = buffer)
  ∨ ∃ i name, (i, name) ∈ entries ∧ tag' = set_type i tag
              ∧ buffer = name ++ rest.
Proof.
  induction entries as [|[i name] entries IH]; simpl.
  - intros [= <- <-]. by left.
  - case_decide; [done|]. case_decide as Hname.
    + intros [= <- <-]. right. exists i, name.
      split; [apply list_elem_of_here|]. split; [done|].
      by rewrite <- Hname at 1; rewrite take_drop.
    + intros Hrec. destruct (IH Hrec) as [?|(j & n & Hin & ? & ?)]; [by left|].
      right. exists j, n. split; [by apply list_elem_of_further|done].
Qed.

Lemma parse_header_Success tag buffer tag' rest :
  parse_header tag buffer = (tag', Success rest) →
  target tag' = (git_oid__parse (target tag) buffer (cstr "object ")).1
  ∧ type tag' ∈ [GIT_OBJ_COMMIT; GIT_OBJ_TREE; GIT_OBJ_BLOB; GIT_OBJ_TAG]
  ∧ (∃ name, tag_name tag' = Some name ∧ LF ∉ name)
  ∧ tagger tag' = tagger tag ∧ message tag' = message tag.
Proof.
  unfold parse_header, and_then, parse_object_field.
  destruct (git_oid__parse _ _ _) as [oid [buffer1|]]; [|done]. simpl.
  unfold parse_type_field.
  case_decide; [done|]. case_decide; [done|].
  destruct (match_tag_type _ _ _) as [tag2 [buffer2|code e]] eqn:Hloop; [|done].
  case_decide as Hbad; [done|].
  unfold parse_tag_field.
  case_decide; [done|]. case_decide; [done|].
  destruct (memchr LF (drop 4 buffer2)) as [text_len|] eqn:Hsearch; [|done].
  intros [= <- <-]. apply memchr_Some in Hsearch as (Hname & _ & _).
  apply match_tag_type_Success in Hloop as [[-> _]|(i & n & Hin & -> & _)];
    [done|]. simpl.
  split; [done|]. split; [|by eauto].
  unfold tag_types in Hin.
  repeat (apply elem_of_cons in Hin as [[= -> _]|Hin]);
    [by repeat constructor..|by apply elem_of_nil in Hin].
Qed.

(** C1. The parser reads back what the serializer of
    [write_tag_annotation] wrote: for a target id that the object-id
    primitives write and read back, a target type among commit, tree, blob
    and tag, a name without newline, a tagger that the signature primitives
    write (after its header) and read back, and any message, [tag_parse] on
    the serialized bytes succeeds and fills the record with exactly these
    fields, the message being present. It holds for the empty name too. *)
Theorem tag_parse_roundtrip (tag0 : git_tag) (name : bytes)
    (target : git_object) (sig : git_signature) (msg : bytes) :
  (∀ out rest,
     git_oid__parse out
       (git_oid__writebuf (cstr "object ") (git_object_id target) ++ rest)
       (cstr "object ") = (git_object_id target, Some rest)) →
  git_object_type target
    ∈ [GIT_OBJ_COMMIT; GIT_OBJ_TREE; GIT_OBJ_BLOB; GIT_OBJ_TAG] →
  LF ∉ name →
  (∃ line, git_signature__writebuf (cstr "tagger ") sig = cstr "tagger " ++ line) →
  (∀ rest,
     git_signature__parse (git_signature__writebuf (cstr "tagger ") sig ++ rest)
       (cstr "tagger ") LF = (sig, inr rest)) →
  tag_parse tag0 (tag_annotation_buffer name target sig msg)
  = (Build_git_tag (git_object_id target) (git_object_type target)
       (Some name) (Some sig) (Some msg), Success ()).
Proof.
  intros Hoid Htype Hname Hline Hsig.
  rewrite tag_annotation_buffer_lines.
  unfold tag_parse, parse_header, and_then.
  unfold parse_object_field. rewrite Hoid.
  rewrite parse_type_field_line by (done || buffer_length).
  rewrite parse_tag_field_line by done.
  rewrite parse_tagger_field_line by done.
  unfold parse_message_field. by rewrite decide_False by (by intros []).
Qed.

(** [tag_parse] is its first four steps followed by the message step. *)
Lemma tag_parse_message tag buffer tag' (rest : bytes) :
  and_then parse_header parse_tagger_field tag buffer = (tag', Success rest) →
  tag_parse tag buffer
  = match parse_message_field tag' rest with
    | (out, Success _) => (out, Success ())
    | (out, Failure code e) => (out, Failure code e)
    end.
Proof.
  intros Hlines. unfold tag_parse. rewrite <- and_then_assoc.
  unfold and_then in *. by rewrite Hlines.
Qed.

(** C7. When the object, type, tag and tagger lines have been parsed, a
    buffer that ends there yields no message (NULL), a buffer that goes on
    with exactly one newline yields the empty message, and the two records
    differ in their message. *)
Theorem tag_parse_message_presence tag buffer tag' (rest : bytes) :
  and_then parse_header parse_tagger_field tag buffer = (tag', Success rest) →
  (rest = [] → tag_parse tag buffer = (set_message None tag', Success ()))
  ∧ (rest = [LF] →
     tag_parse tag buffer = (set_message (Some []) tag', Success ()))
  ∧ git_tag_message (set_message None tag')
    ≠ git_tag_message (set_message (Some []) tag').
Proof.
  intros Hlines. rewrite (tag_parse_message _ _ _ _ Hlines).
  split; [by intros ->|]. split; [|done].
  intros ->. unfold parse_message_field.
  by rewrite decide_False by (by intros []).
Qed.

(** C9. A failure after the tag line does not undo the record: when the
    object, type and tag lines parse and [tag_parse] then fails (in the
    tagger line or at the message separator), the record still holds the
    target id read by the object-id parser, the type among commit, tree,
    blob and tag, and the name read from the tag line. *)
Theorem tag_parse_failure_keeps_header tag buffer tag1 rest code e :
  parse_header tag buffer = (tag1, Success rest) →
  (tag_parse tag buffer).2 = Failure code e →
  let out := (tag_parse tag buffer).1 in
  target out = target tag1 ∧ type out = type tag1
  ∧ tag_name out = tag_name tag1
  ∧ target out = (git_oid__parse (target tag) buffer (cstr "object ")).1
  ∧ type out ∈ [GIT_OBJ_COMMIT; GIT_OBJ_TREE; GIT_OBJ_BLOB; GIT_OBJ_TAG]
  ∧ (∃ name, tag_name out = Some name ∧ LF ∉ name).
Proof.
  intros Hheader Hfail.
  destruct (parse_header_Success _ _ _ _ Hheader) as (Hid & Hty & Hname & _).
  assert (let out := (tag_parse tag buffer).1 in
          target out = target tag1 ∧ type out = type tag1
          ∧ tag_name out = tag_name tag1) as (Ht & Hy & Hn).
  { clear Hfail. unfold tag_parse, and_then. rewrite Hheader.
    pose proof (parse_tagger_field_frame tag1 rest) as Hfr.
    destruct (parse_tagger_field tag1 rest) as [tag2 [rest2|c2 e2]];
      simpl in Hfr; [|done].
    pose proof (parse_message_field_frame tag2 rest2) as Hfr'.
    destruct (parse_message_field tag2 rest2) as [tag3 [rest3|c3 e3]];
      simpl in *; destruct Hfr as (<- & <- & <-); by destruct Hfr' as (?&?&?&?). }
  simpl in *. rewrite Ht, Hy, Hn. done.
Qed.






(** [failing_field] names a field exactly when [tag_parse] fails. *)
Lemma tag_parse_Success_iff tag buffer :
  (tag_parse tag buffer).2 = Success () ↔ failing_field tag buffer = None.
Proof.
  unfold failing_field, tag_parse, parse_header, and_then.
  destruct (parse_object_field tag buffer) as [t1 [b1|c1 e1]]; [|done].
  destruct (parse_type_field t1 b1) as [t2 [b2|c2 e2]]; [|done].
  destruct (parse_tag_field t2 b2) as [t3 [b3|c3 e3]]; [|done].
  destruct (parse_tagger_field t3 b3) as [t4 [b4|c4 e4]]; [|done].
  by destruct (parse_message_field t4 b4) as [t5 [b5|c5 e5]].
Qed.


End Parser.

(** * Properties of creation, deletion and enumeration *)

Lemma git__prefixcmp_prefix (str prefix : bytes) :
  Forall (λ c, nat_of_ascii c ≠ O) prefix →
  git__prefixcmp str prefix = 0 ↔ prefix `prefix_of` str.
Proof.
  intros Hnul. revert str.
  induction Hnul as [|p prefix Hp _ IH]; intros str; simpl.
  - split; [intros _; apply prefix_nil|done].
  - destruct str as [|s str].
    + split; [lia|]. intros Hpre. by apply prefix_nil_inv in Hpre.
    + case_decide as Hs.
      * subst s. rewrite IH. split; [apply prefix_cons|apply prefix_cons_inv_2].
      * split.
        -- intros Hz. destruct Hs.
           rewrite <- (ascii_nat_embedding s), <- (ascii_nat_embedding p).
           f_equal. lia.
        -- intros Hpre. by apply prefix_cons_inv_1 in Hpre.
Qed.

Lemma tags_dir_prefix (ref : bytes) :
  git__prefixcmp ref GIT_REFS_TAGS_DIR = 0
  ↔ ∃ short, ref = GIT_REFS_TAGS_DIR ++ short.
Proof.
  rewrite git__prefixcmp_prefix; [done|].
  unfold GIT_REFS_TAGS_DIR. cbn. repeat constructor; done.
Qed.

Section Lifecycle.
Context `{Collaborators}.

(** C4. For a buffer that parses, on a repository whose object database is
    available: if the object read at the parsed target id has a type other
    than the one the buffer declares, [git_tag_create_frombuffer] fails with
    code -1 and the error "The type for the given target is invalid", and if
    the read fails it fails with code -1 and the error of the read; in both
    cases the repository (objects and references) is returned unchanged. *)
Theorem create_frombuffer_checks_target (repo : git_repository)
    (buffer : bytes) (allow_ref_overwrite : bool) (odb : git_odb)
    (tag : git_tag) :
  repo_odb repo = Success odb →
  tag_parse git_tag_zero buffer = (tag, Success ()) →
  (∀ stored_type data,
     git_odb_read odb (target tag) = Success (stored_type, data) →
     type tag ≠ stored_type →
     git_tag_create_frombuffer repo buffer allow_ref_overwrite
     = (repo, Failure (-1) target_type_error))
  ∧ (∀ code e,
       git_odb_read odb (target tag) = Failure code e →
       git_tag_create_frombuffer repo buffer allow_ref_overwrite
       = (repo, Failure (-1) e)).
Proof.
  intros Hodb Hparse. unfold git_tag_create_frombuffer, git_repository_odb__weakptr.
  rewrite Hodb, Hparse. split.
  - intros stored_type data -> Hdiff. by rewrite decide_True.
  - by intros code e ->.
Qed.

(** The object database changes only through the stream that receives the
    caller's buffer. *)
Lemma create_frombuffer_odb (repo : git_repository) (buffer : bytes)
    (allow_ref_overwrite : bool) :
  let out := git_tag_create_frombuffer repo buffer allow_ref_overwrite in
  repo_odb out.1 = repo_odb repo
  ∨ ∃ odb stream,
      repo_odb repo = Success odb
      ∧ git_odb_open_wstream odb (length buffer) GIT_OBJ_TAG = Success stream
      ∧ repo_odb out.1
        = Success (git_odb_stream_finalize_write odb
                     (git_odb_stream_write stream buffer)).1
      ∧ (∀ oid, out.2 = Success oid →
           (git_odb_stream_finalize_write odb
              (git_odb_stream_write stream buffer)).2 = Success oid).
Proof.
  unfold git_tag_create_frombuffer, git_repository_odb__weakptr.
  destruct (repo_odb repo) as [odb|code e] eqn:Hodb; [|by left].
  destruct (tag_parse git_tag_zero buffer) as [tag [[]|code e]]; [|by left].
  destruct (git_odb_read odb (target tag)) as [obj|code e]; [|by left].
  case_decide; [by left|].
  destruct (retrieve_tag_reference_oid _ _) as [ref_name found].
  assert (∀ stop : option (git_result git_oid),
    let out :=
      match stop with
      | Some failure => (repo, failure)
      | None =>
          match git_odb_open_wstream odb (length buffer) GIT_OBJ_TAG with
          | Failure _ e => (repo, Failure (-1) e)
          | Success stream =>
              let stream := git_odb_stream_write stream buffer in
              let '(odb', error) := git_odb_stream_finalize_write odb stream in
              match error with
              | Failure _ e => (with_odb odb' repo, Failure (-1) e)
              | Success oid =>
                  let '(refs, error) :=
                    git_reference_create (repo_refdb repo) ref_name oid
                      allow_ref_overwrite in
                  (with_refdb refs (with_odb odb' repo),
                   match error with
                   | Success _ => Success oid
                   | Failure code e => Failure code e
                   end)
              end
          end
      end in
    repo_odb out.1 = Success odb
    ∨ ∃ odb0 stream,
        Success odb = Success odb0
        ∧ git_odb_open_wstream odb0 (length buffer) GIT_OBJ_TAG = Success stream
        ∧ repo_odb out.1
          = Success (git_odb_stream_finalize_write odb0
                       (git_odb_stream_write stream buffer)).1
        ∧ (∀ oid, out.2 = Success oid →
             (git_odb_stream_finalize_write odb0
                (git_odb_stream_write stream buffer)).2 = Success oid)) as Hstop.
  { intros [failure|]; simpl; [by left|].
    destruct (git_odb_open_wstream odb (length buffer) GIT_OBJ_TAG)
      as [stream|code e] eqn:Hopen; [|by left].
    right. exists odb, stream. split; [done|]. split; [done|].
    destruct (git_odb_stream_finalize_write odb _) as [odb' [oid|code e]];
      simpl; [|done].
    destruct (git_reference_create _ _ _ _) as [refs [[]|code e]]; simpl.
    - split; [done|]. by intros ? [= ->].
    - done. }
  apply Hstop.
Qed.

(** C5. For a store whose streams commit what they receive, a call of
    [git_tag_create_frombuffer] that succeeds has written the caller's
    buffer itself: the object filed under the returned id has the type tag
    and its bytes are the buffer, byte for byte. *)
Theorem create_frombuffer_verbatim (repo : git_repository) (buffer : bytes)
    (allow_ref_overwrite : bool) (repo' : git_repository) (oid : git_oid) :
  (∀ odb size type stream data odb' id,
     git_odb_open_wstream odb size type = Success stream →
     git_odb_stream_finalize_write odb (git_odb_stream_write stream data)
     = (odb', Success id) →
     git_odb_read odb' id = Success (type, data)) →
  git_tag_create_frombuffer repo buffer allow_ref_overwrite
  = (repo', Success oid) →
  ∃ odb', repo_odb repo' = Success odb'
          ∧ git_odb_read odb' oid = Success (GIT_OBJ_TAG, buffer).
Proof.
  intros Hlaw Hcall.
  assert (∃ odb stream,
    git_odb_open_wstream odb (length buffer) GIT_OBJ_TAG = Success stream
    ∧ repo_odb repo'
      = Success (git_odb_stream_finalize_write odb
                   (git_odb_stream_write stream buffer)).1
    ∧ (git_odb_stream_finalize_write odb
         (git_odb_stream_write stream buffer)).2 = Success oid)
    as (odb & stream & Hopen & Hrepo & Hfin).
  { revert Hcall.
    unfold git_tag_create_frombuffer, git_repository_odb__weakptr.
    destruct (repo_odb repo) as [odb|code e]; [|done].
    destruct (tag_parse git_tag_zero buffer) as [tag [[]|code e]]; [|done].
    destruct (git_odb_read odb (target tag)) as [obj|code e]; [|done].
    case_decide; [done|].
    destruct (retrieve_tag_reference_oid _ _) as [ref_name found].
    destruct found as [found|code e];
      [destruct allow_ref_overwrite|case_decide]; try done.
    all: destruct (git_odb_open_wstream odb (length buffer) GIT_OBJ_TAG)
           as [stream|code' e'] eqn:Hopen; [|done].
    all: destruct (git_odb_stream_finalize_write odb _)
           as [odb' [id|code' e']] eqn:Hfin; [|done].
    all: destruct (git_reference_create _ _ _ _) as [refs [[]|code' e']];
           [|done].
    all: intros [= <- <-]; exists odb, stream; by rewrite Hfin. }
  destruct (git_odb_stream_finalize_write odb _) as [odb' r] eqn:Hcommit.
  simpl in *. subst r. exists odb'. split; [done|]. by eapply Hlaw.
Qed.

End Lifecycle.

Section Binding.
Context `{Collaborators}.

Lemma write_tag_annotation_frame (repo : git_repository) (name : bytes)
    (target : git_object) (tagger : git_signature) (message : bytes) :
  let out := write_tag_annotation repo name target tagger message in
  repo_addr out.1 = repo_addr repo ∧ repo_refdb out.1 = repo_refdb repo.
Proof.
  unfold write_tag_annotation, git_repository_odb__weakptr.
  destruct (repo_odb repo) as [odb|code e]; [|done].
  by destruct (git_odb_write _ _ _) as [odb' [oid|code e]].
Qed.

(** A creation that succeeds ended with a successful
    [git_reference_create] of the tag's reference. *)
Lemma create_internal_Success (repo : git_repository) (name : bytes)
    (target : git_object) annotation (allow_ref_overwrite : bool)
    (repo' : git_repository) (oid : git_oid) :
  git_tag_create__internal repo name target annotation allow_ref_overwrite
  = (repo', Success oid) →
  repo_addr repo' = repo_addr repo
  ∧ git_reference_create (repo_refdb repo) (GIT_REFS_TAGS_DIR ++ name) oid
      allow_ref_overwrite = (repo_refdb repo', Success ()).
Proof.
  unfold git_tag_create__internal, retrieve_tag_reference_oid, git_buf_joinpath.
  case_decide; [done|].
  destruct (git_reference_name_to_id _ _) as [found|code e];
    [destruct allow_ref_overwrite|case_decide]; try done; cbn zeta iota.
  all: destruct annotation as [[tagger message]|].
  all: try (pose proof (write_tag_annotation_frame repo name target tagger
                          message) as [Haddr Hrefs];
            destruct (write_tag_annotation _ _ _ _ _) as [repo1 [id|c1 e1]];
            [simpl in Haddr, Hrefs; rewrite Hrefs|done]).
  all: destruct (git_reference_create _ _ _ _) as [refs [[]|c2 e2]] eqn:Hbind;
         [|done].
  all: by intros [= <- <-].
Qed.

(** Creating a tag under a name that a successful creation has bound. *)
Lemma create_internal_overwrite (repo0 repo1 : git_repository) (name : bytes)
    (target1 target2 : git_object) annotation1 annotation2
    (allow1 : bool) (id1 : git_oid) (odb1 : git_odb) :
  (∀ refs ref_name id force refs',
     git_reference_create refs ref_name id force = (refs', Success ()) →
     git_reference_name_to_id refs' ref_name = Success id) →
  (∀ refs ref_name id,
     (git_reference_create refs ref_name id true).2 = Success ()) →
  (∀ odb data type, is_success (git_odb_write odb data type).2 = true) →
  git_tag_create__internal repo0 name target1 annotation1 allow1
  = (repo1, Success id1) →
  git_object_owner target2 = repo_addr repo1 →
  repo_odb repo1 = Success odb1 →
  git_tag_create__internal repo1 name target2 annotation2 false
  = (repo1, Failure GIT_EEXISTS (giterr_set GITERR_TAG "Tag already exists"))
  ∧ ∃ repo2 id2,
      git_tag_create__internal repo1 name target2 annotation2 true
      = (repo2, Success id2)
      ∧ git_reference_name_to_id (repo_refdb repo2) (GIT_REFS_TAGS_DIR ++ name)
        = Success id2
      ∧ match annotation2 with
        | None => id2 = git_object_id target2 ∧ repo_odb repo2 = repo_odb repo1
        | Some (tagger, message) =>
            (git_odb_write odb1
               (tag_annotation_buffer name target2 tagger message)
               GIT_OBJ_TAG).2 = Success id2
        end.
Proof.
  intros Hbound Hforce Hwrite Hfirst Howner Hodb.
  apply create_internal_Success in Hfirst as [_ Hcreate].
  apply Hbound in Hcreate.
  unfold git_tag_create__internal, retrieve_tag_reference_oid, git_buf_joinpath.
  rewrite !decide_False by (by intros []). rewrite Hcreate. cbn zeta iota.
  split; [done|].
  destruct annotation2 as [[tagger message]|].
  - unfold write_tag_annotation, git_repository_odb__weakptr. rewrite Hodb.
    specialize (Hwrite odb1 (tag_annotation_buffer name target2 tagger message)
                  GIT_OBJ_TAG).
    destruct (git_odb_write _ _ _) as [odb2 [id2|c e]]; [|done]. simpl.
    specialize (Hforce (repo_refdb repo1) (GIT_REFS_TAGS_DIR ++ name) id2).
    destruct (git_reference_create _ _ _ _) as [refs r] eqn:Hbind.
    simpl in Hforce. subst r. eexists _, id2. split; [done|]. simpl.
    split; [by eapply Hbound|done].
  - specialize (Hforce (repo_refdb repo1) (GIT_REFS_TAGS_DIR ++ name)
                  (git_object_id target2)).
    destruct (git_reference_create _ _ _ _) as [refs r] eqn:Hbind.
    simpl in Hforce. subst r. eexists _, _. split; [done|]. simpl.
    split; [by eapply Hbound|done].
Qed.

(** C6. On stores that file what they are given (a reference that was
    created resolves to its id, a forced creation succeeds, a write to the
    object database succeeds): once a tag was created under a name (by
    [git_tag_create] or by [git_tag_create_lightweight], that is by
    [git_tag_create__internal] with or without annotation), creating it
    again for a target of the repository without overwrite returns
    [GIT_EEXISTS] and leaves the repository, hence the binding and the
    objects, as it was; with overwrite it succeeds and the name then
    resolves to the new id, which is the target's id for a lightweight tag
    and the id of the written annotation for an annotated one. *)
Theorem tag_create_overwrite (repo0 repo1 : git_repository) (name : bytes)
    (target1 target2 : git_object) annotation1 (allow1 : bool)
    (id1 : git_oid) (odb1 : git_odb) :
  (∀ refs ref_name id force refs',
     git_reference_create refs ref_name id force = (refs', Success ()) →
     git_reference_name_to_id refs' ref_name = Success id) →
  (∀ refs ref_name id,
     (git_reference_create refs ref_name id true).2 = Success ()) →
  (∀ odb data type, is_success (git_odb_write odb data type).2 = true) →
  git_tag_create__internal repo0 name target1 annotation1 allow1
  = (repo1, Success id1) →
  git_object_owner target2 = repo_addr repo1 →
  repo_odb repo1 = Success odb1 →
  git_tag_create_lightweight repo1 name target2 false
  = (repo1, Failure GIT_EEXISTS (giterr_set GITERR_TAG "Tag already exists"))
  ∧ (∀ tagger message,
       git_tag_create repo1 name target2 tagger message false
       = (repo1,
          Failure GIT_EEXISTS (giterr_set GITERR_TAG "Tag already exists")))
  ∧ (∃ repo2,
       git_tag_create_lightweight repo1 name target2 true
       = (repo2, Success (git_object_id target2))
       ∧ git_reference_name_to_id (repo_refdb repo2) (GIT_REFS_TAGS_DIR ++ name)
         = Success (git_object_id target2)
       ∧ repo_odb repo2 = repo_odb repo1)
  ∧ (∀ tagger message,
       ∃ repo2 id2,
         git_tag_create repo1 name target2 tagger message true
         = (repo2, Success id2)
         ∧ git_reference_name_to_id (repo_refdb repo2)
             (GIT_REFS_TAGS_DIR ++ name) = Success id2
         ∧ (git_odb_write odb1
              (tag_annotation_buffer name target2 tagger message)
              GIT_OBJ_TAG).2 = Success id2).
Proof.
  intros Hbound Hforce Hwrite Hfirst Howner Hodb.
  pose proof (λ annotation2,
    create_internal_overwrite repo0 repo1 name target1 target2 annotation1
      annotation2 allow1 id1 odb1 Hbound Hforce Hwrite Hfirst Howner Hodb)
    as Hsecond.
  split; [apply (Hsecond None)|].
  split; [intros tagger message; apply (Hsecond (Some (tagger, message)))|].
  split.
  - destruct (Hsecond None) as (_ & repo2 & id2 & Hcall & Hres & -> & Hsame).
    by exists repo2.
  - intros tagger message.
    destruct (Hsecond (Some (tagger, message)))
      as (_ & repo2 & id2 & Hcall & Hres & Hid).
    by exists repo2, id2.
Qed.

(** C10. [git_tag_delete] does not touch the object database: it is
    returned as it was, so every object, the tag object and its target among
    them, is read as before. The reference store is either unchanged (the
    lookup of refs/tags/<name> failed and its error is returned) or changed
    by the one [git_reference_delete] of the reference found under that
    name. *)
Theorem tag_delete_frame (repo : git_repository) (name : bytes) :
  repo_odb (git_tag_delete repo name).1 = repo_odb repo
  ∧ (∀ odb id, repo_odb repo = Success odb →
       ∃ odb', repo_odb (git_tag_delete repo name).1 = Success odb'
               ∧ git_odb_read odb' id = git_odb_read odb id)
  ∧ match git_reference_lookup (repo_refdb repo) (GIT_REFS_TAGS_DIR ++ name) with
    | Failure code e => git_tag_delete repo name = (repo, Failure code e)
    | Success tag_ref =>
        git_tag_delete repo name
        = (with_refdb (git_reference_delete (repo_refdb repo) tag_ref).1 repo,
           (git_reference_delete (repo_refdb repo) tag_ref).2)
    end.
Proof.
  unfold git_tag_delete, retrieve_tag_reference, git_buf_joinpath.
  destruct (git_reference_lookup _ _) as [tag_ref|code e].
  - destruct (git_reference_delete _ _) as [refs r]. simpl.
    split; [done|]. split; [|done]. intros odb id ->. by exists odb.
  - simpl. split; [done|]. split; [|done]. intros odb id ->. by exists odb.
Qed.

End Binding.

Section Catalog.
Context `{Collaborators}.

Lemma tag_list_match_code (pattern : bytes) (repo : git_repository) :
  (git_tag_list_match pattern repo).2 = 0.
Proof.
  unfold git_tag_list_match. by destruct (git_tag_foreach _ _ _).
Qed.

(** What [git_tag_foreach] hands back is what stopped the enumeration: the
    error of the iteration, or the first value other than 0 that [tags_cb]
    returned. *)
Lemma tag_foreach_iteration_error {S} (repo : git_repository)
    (cb : git_tag_foreach_cb S) (cb_data : S) code e :
  git_reference_names (repo_refdb repo) = Failure code e →
  git_tag_foreach repo cb cb_data = (cb_data, code).
Proof.
  intros Hnames. unfold git_tag_foreach, git_reference_foreach_name.
  by rewrite Hnames.
Qed.

Lemma foreach_name_stop {S} (callback : bytes → S → S * Z)
    (names : list bytes) (payload : S) :
  let out := foreach_name callback names payload in
  out.2 = 0
  ∨ ∃ ref data, ref ∈ names ∧ callback ref data = out.
Proof.
  revert payload. induction names as [|ref names IH]; intros payload; simpl.
  - by left.
  - destruct (callback ref payload) as [payload' error] eqn:Hcall.
    case_decide.
    + right. exists ref, payload. split; [apply list_elem_of_here|done].
    + destruct (IH payload') as [?|(r & d & Hin & Hcb)]; [by left|].
      right. exists r, d. split; [by apply list_elem_of_further|done].
Qed.

Lemma foreach_name_first_stop {S} (callback : bytes → S → S * Z)
    (ref : bytes) (names : list bytes) (payload payload' : S) (error : Z) :
  callback ref payload = (payload', error) → error ≠ 0 →
  foreach_name callback (ref :: names) payload = (payload', error).
Proof.
  intros Hcall Hstop. simpl. rewrite Hcall. by rewrite decide_True.
Qed.

Lemma foreach_tag_list (repo : git_repository) (pat : bytes)
    (names : list bytes) (v : list bytes) :
  (∀ ref, ref ∈ names → git__prefixcmp ref GIT_REFS_TAGS_DIR = 0 →
     is_success (git_reference_name_to_id (repo_refdb repo) ref) = true) →
  foreach_name (tags_cb repo tag_list_cb) names (Build_tag_filter_data v pat)
  = (Build_tag_filter_data
       (v ++ (drop GIT_REFS_TAGS_DIR_LEN <$> filter (tag_matches pat) names))
       pat, 0).
Proof.
  revert v. induction names as [|ref names IH]; intros v Hres; simpl.
  - by rewrite app_nil_r.
  - assert (∀ w, foreach_name (tags_cb repo tag_list_cb) names
                   (Build_tag_filter_data w pat)
                 = (Build_tag_filter_data
                      (w ++ (drop GIT_REFS_TAGS_DIR_LEN
                               <$> filter (tag_matches pat) names))
                      pat, 0)) as IH'.
    { intros w. apply IH. intros r Hr. apply Hres. by apply list_elem_of_further. }
    unfold tags_cb at 1. case_decide as Hprefix.
    + rewrite decide_False by (intros Hne; by apply Hne). rewrite IH'.
      rewrite filter_cons_False; [done|]. by intros [? _].
    + specialize (Hres ref (list_elem_of_here _ _) Hprefix).
      destruct (git_reference_name_to_id _ _) as [oid|code e]; [|done].
      unfold tag_list_cb, git_vector_insert. cbn [pattern taglist].
      case_decide as Hmatch.
      * rewrite decide_False by (intros Hne; by apply Hne). rewrite IH'.
        rewrite filter_cons_True by done.
        by rewrite fmap_cons, <- app_assoc.
      * rewrite decide_False by (intros Hne; by apply Hne). rewrite IH'.
        rewrite filter_cons_False; [done|]. by intros [_ ?].
Qed.

(** C8, as amended. When the reference store enumerates its names and every
    reference
    of the tags namespace resolves to an id, [git_tag_list_match] returns 0
    and the short names (prefix refs/tags/ removed), in enumeration order,
    of exactly the references of the tags namespace whose short name
    [p_fnmatch] matches; with the empty pattern, as [git_tag_list] calls
    it, that is every tag. A short name is listed only for a reference
    refs/tags/<short name>. *)
Theorem tag_list_match_filter (repo : git_repository) (pattern : bytes)
    (names : list bytes) :
  git_reference_names (repo_refdb repo) = Success names →
  (∀ ref, ref ∈ names → git__prefixcmp ref GIT_REFS_TAGS_DIR = 0 →
     is_success (git_reference_name_to_id (repo_refdb repo) ref) = true) →
  git_tag_list_match pattern repo
  = (drop GIT_REFS_TAGS_DIR_LEN <$> filter (tag_matches pattern) names, 0)
  ∧ (∀ short,
       short ∈ (git_tag_list_match pattern repo).1
       ↔ GIT_REFS_TAGS_DIR ++ short ∈ names
         ∧ (pattern = [] ∨ p_fnmatch pattern short 0 = 0))
  ∧ (∀ short,
       short ∈ (git_tag_list repo).1 ↔ GIT_REFS_TAGS_DIR ++ short ∈ names).
Proof.
  intros Hnames Hres.
  assert (∀ pat, git_tag_list_match pat repo
            = (drop GIT_REFS_TAGS_DIR_LEN <$> filter (tag_matches pat) names, 0))
    as Hlist.
  { intros pat. unfold git_tag_list_match, git_tag_foreach,
      git_reference_foreach_name.
    rewrite Hnames, foreach_tag_list by done. by rewrite decide_False by lia. }
  assert (∀ pat short,
            short ∈ (git_tag_list_match pat repo).1
            ↔ GIT_REFS_TAGS_DIR ++ short ∈ names
              ∧ (pat = [] ∨ p_fnmatch pat short 0 = 0)) as Hmem.
  { intros pat short. rewrite Hlist. simpl. rewrite list_elem_of_fmap. split.
    - intros (ref & -> & Hin). apply list_elem_of_filter in Hin as [[Hp Hm] Hin].
      apply tags_dir_prefix in Hp as [s ->].
      change (drop GIT_REFS_TAGS_DIR_LEN (GIT_REFS_TAGS_DIR ++ s)) with s in *.
      done.
    - intros [Hin Hm]. exists (GIT_REFS_TAGS_DIR ++ short). split; [done|].
      apply list_elem_of_filter. split; [|done]. split; [|done].
      apply tags_dir_prefix. by exists short. }
  split; [apply Hlist|]. split; [apply Hmem|].
  intros short. unfold git_tag_list. rewrite Hmem.
  split; [by intros [? _]|]. intros Hin. split; [done|by left].
Qed.

End Catalog.

(** C2, where the code departs from it. In the model repository
    [dangling_repo] the tag refs/tags/broken does not resolve:
    [git_tag_foreach] stops with [GIT_ENOTFOUND], and [git_tag_list_match]
    still returns 0, with an empty list. It returns 0 whatever
    [git_tag_foreach] returned. *)
Theorem tag_list_match_swallows_error :
  (@git_tag_foreach model _ dangling_repo (@tag_list_cb model)
     (Build_tag_filter_data [] [])).2 = GIT_ENOTFOUND
  ∧ @git_tag_list_match model [] dangling_repo = ([], 0)
  ∧ ∀ (C : Collaborators) pattern repo,
      (@git_tag_list_match C pattern repo).2 = 0.
Proof.
  split; [by vm_compute|]. split; [by vm_compute|].
  intros C pattern repo. apply tag_list_match_code.
Qed.

(** * The model satisfies what the theorems assume, and sample runs *)

Lemma model_oid_roundtrip (header id out rest : bytes) :
  length id = GIT_OID_HEXSZ → forallb is_hex_digit id = true →
  model_oid__parse out (model_oid__writebuf header id ++ rest) header
  = (id, Some rest).
Proof.
  intros Hlen Hhex. unfold model_oid__parse, model_oid__writebuf.
  rewrite <- Hlen.
  assert ((header ++ id ++ [LF]) ++ rest = header ++ id ++ LF :: rest) as ->
    by (by rewrite <- !app_assoc).
  rewrite decide_False by (rewrite !length_app, length_cons; lia).
  rewrite take_app_length. rewrite decide_False by (intros Hne; by apply Hne).
  rewrite drop_app_length, take_app_length.
  replace (drop (length header + length id) (header ++ id ++ LF :: rest))
    with (LF :: rest)
    by (by rewrite <- length_app, app_assoc, drop_app_length).
  rewrite decide_False by (intros Hne; by apply Hne). rewrite Hhex.
  replace (length header + length id + 1)%nat
    with (S (length (header ++ id)))
    by (rewrite length_app; lia).
  by rewrite app_assoc, drop_line.
Qed.

Lemma model_signature_roundtrip (header sig rest : bytes) :
  LF ∉ header → LF ∉ sig →
  model_signature__parse (model_signature__writebuf header sig ++ rest) header LF
  = (sig, inr rest).
Proof.
  intros Hheader Hsig. unfold model_signature__parse, model_signature__writebuf.
  assert ((header ++ sig ++ [LF]) ++ rest = (header ++ sig) ++ LF :: rest) as ->
    by (by rewrite <- !app_assoc).
  rewrite memchr_app by (rewrite elem_of_app; tauto).
  rewrite take_app_length, take_app_length, drop_app_length, drop_line.
  by rewrite decide_True.
Qed.

Lemma model_stream_commits (odb : gmap bytes (Z * bytes)) (size : nat)
    (type : Z) (stream : nat * Z * bytes) (data : bytes)
    (odb' : gmap bytes (Z * bytes)) (id : bytes) :
  model_odb_open_wstream odb size type = Success stream →
  model_odb_stream_finalize_write odb (model_odb_stream_write stream data)
  = (odb', Success id) →
  model_odb_read odb' id = Success (type, data).
Proof.
  intros [= <-]. unfold model_odb_stream_write, model_odb_stream_finalize_write,
    model_odb_write, model_odb_read. simpl.
  intros [= <- <-]. by rewrite lookup_insert_eq.
Qed.

Lemma model_reference_bound (refs : gmap bytes model_ref) (name id : bytes)
    (force : bool) (refs' : gmap bytes model_ref) :
  model_reference_create refs name id force = (refs', Success ()) →
  model_reference_name_to_id refs' name = Success id.
Proof.
  unfold model_reference_create, model_reference_name_to_id.
  destruct (refs !! name); [destruct force|]; intros [= <-]; simpl;
    by rewrite lookup_insert_eq.
Qed.

Lemma model_reference_forced (refs : gmap bytes model_ref) (name id : bytes) :
  (model_reference_create refs name id true).2 = Success ().
Proof. unfold model_reference_create. by destruct (refs !! name). Qed.

Lemma tag_parse_roundtrip_witness :
  @tag_parse model (@git_tag_zero model)
    (@tag_annotation_buffer model (cstr "v1") sample_target sample_tagger
       (cstr "first release"))
  = (@Build_git_tag model sample_id GIT_OBJ_COMMIT (Some (cstr "v1"))
       (Some sample_tagger) (Some (cstr "first release")), Success ()).
Proof.
  apply (@tag_parse_roundtrip model).
  - intros out rest. by apply model_oid_roundtrip.
  - apply list_elem_of_here.
  - no_newline.
  - by eexists.
  - intros rest. apply model_signature_roundtrip; no_newline.
Defined.

(** The spec's example: with the tagger line last the message is absent,
    with one more newline it is the empty message. *)
Lemma tag_parse_message_presence_witness :
  @tag_parse model (@git_tag_zero model) sample_buffer
  = (@Build_git_tag model sample_id GIT_OBJ_COMMIT (Some (cstr "v1"))
       (Some sample_tagger) None, Success ())
  ∧ @tag_parse model (@git_tag_zero model) (sample_buffer ++ [LF])
    = (@Build_git_tag model sample_id GIT_OBJ_COMMIT (Some (cstr "v1"))
         (Some sample_tagger) (Some []), Success ()).
Proof.
  split.
  - apply (proj1 (@tag_parse_message_presence model (@git_tag_zero model)
                    sample_buffer _ [] eq_refl) eq_refl).
  - apply (proj1 (proj2 (@tag_parse_message_presence model (@git_tag_zero model)
                           (sample_buffer ++ [LF]) _ [LF] eq_refl)) eq_refl).
Defined.

(** A buffer whose message does not start with a newline: the parse fails
    at the separator and the record keeps the id, the type and the name. *)
Lemma tag_parse_failure_keeps_header_witness :
  let out := (@tag_parse model (@git_tag_zero model)
                (sample_buffer ++ cstr "text")).1 in
  (@tag_parse model (@git_tag_zero model) (sample_buffer ++ cstr "text")).2
  = tag_error "No new line before message"
  ∧ @target model out = sample_id
  ∧ @type model out = GIT_OBJ_COMMIT
  ∧ @tag_name model out = Some (cstr "v1").
Proof.
  split; [by vm_compute|].
  destruct (@tag_parse_failure_keeps_header model (@git_tag_zero model)
              (sample_buffer ++ cstr "text")
              (@Build_git_tag model sample_id GIT_OBJ_COMMIT
                 (Some (cstr "v1")) None None)
              (cstr "tagger A <a@x> 0 +0000" ++ [LF] ++ cstr "text")
              (-1)
              (giterr_set GITERR_TAG
                 "Failed to parse tag. No new line before message")
              eq_refl eq_refl)
    as (Htarget & Htype & Hname & _).
  by split; [|split].
Defined.



(** The same happens for a buffer whose type line is complete and whose tag
    line is cut: with seven bytes left after the type marker the loop over
    the type names gives up before it compares them. *)
Lemma cut_tag_line_fails_in_type_loop :
  @failing_field model (@git_tag_zero model)
    (sample_object_line ++ cstr "type tag" ++ [LF] ++ cstr "tag")
  = Some TypeField.
Proof. reflexivity. Qed.

Lemma create_frombuffer_checks_target_witness :
  @git_tag_create_frombuffer model blob_repo sample_buffer false
  = (blob_repo, Failure (-1) target_type_error)
  ∧ @git_tag_create_frombuffer model empty_repo sample_buffer false
    = (empty_repo, Failure (-1) model_odb_not_found).
Proof.
  split.
  - destruct (@create_frombuffer_checks_target model blob_repo sample_buffer
                false (<[sample_id := (GIT_OBJ_BLOB, cstr "data")]> ∅)
                (@Build_git_tag model sample_id GIT_OBJ_COMMIT
                   (Some (cstr "v1")) (Some sample_tagger) None))
      as [Hmismatch _]; [reflexivity|reflexivity|].
    apply (Hmismatch GIT_OBJ_BLOB (cstr "data")); [reflexivity|discriminate].
  - destruct (@create_frombuffer_checks_target model empty_repo sample_buffer
                false ∅
                (@Build_git_tag model sample_id GIT_OBJ_COMMIT
                   (Some (cstr "v1")) (Some sample_tagger) None))
      as [_ Hmissing]; [reflexivity|reflexivity|].
    apply (Hmissing GIT_ENOTFOUND model_odb_not_found). reflexivity.
Defined.

Lemma create_frombuffer_verbatim_witness :
  ∃ odb', repo_odb
            (@git_tag_create_frombuffer model sample_repo sample_buffer false).1
          = Success odb'
          ∧ @git_odb_read model odb'
              (model_content_id GIT_OBJ_TAG sample_buffer)
            = Success (GIT_OBJ_TAG, sample_buffer).
Proof.
  apply (@create_frombuffer_verbatim model sample_repo sample_buffer false
           (@git_tag_create_frombuffer model sample_repo sample_buffer false).1
           (model_content_id GIT_OBJ_TAG sample_buffer)).
  - apply model_stream_commits.
  - reflexivity.
Defined.

Lemma tag_create_overwrite_witness :
  let repo1 :=
    (@git_tag_create_lightweight model sample_repo (cstr "v1") sample_target
       false).1 in
  @git_tag_create_lightweight model repo1 (cstr "v1") other_target false
  = (repo1, Failure GIT_EEXISTS (giterr_set GITERR_TAG "Tag already exists"))
  ∧ @git_reference_name_to_id model (repo_refdb repo1) (cstr "refs/tags/v1")
    = Success sample_id
  ∧ ∃ repo2,
      @git_tag_create_lightweight model repo1 (cstr "v1") other_target true
      = (repo2, Success other_id)
      ∧ @git_reference_name_to_id model (repo_refdb repo2) (cstr "refs/tags/v1")
        = Success other_id.
Proof.
  intros repo1.
  destruct (@tag_create_overwrite model sample_repo repo1 (cstr "v1")
              sample_target other_target None false sample_id
              (<[sample_id := (GIT_OBJ_COMMIT, cstr "tree 89ab")]>
                 (<[other_id := (GIT_OBJ_TREE, cstr "")]> ∅)))
    as (Hexists & _ & (repo2 & Hreplace & Hbound & _) & _).
  - apply model_reference_bound.
  - apply model_reference_forced.
  - reflexivity.
  - reflexivity.
  - reflexivity.
  - reflexivity.
  - split; [exact Hexists|]. split; [reflexivity|]. by exists repo2.
Defined.

Lemma tag_list_match_filter_witness :
  (∀ short,
     short ∈ (@git_tag_list_match model (cstr "v1.*") catalog_repo).1
     ↔ short = cstr "v1.1" ∨ short = cstr "v1.0")
  ∧ (∀ short,
       short ∈ (@git_tag_list model catalog_repo).1
       ↔ short = cstr "v1.1" ∨ short = cstr "v1.0" ∨ short = cstr "v2.0").
Proof.
  assert (∀ ref, ref ∈ (map_to_list (repo_refdb catalog_repo)).*1 →
            git__prefixcmp ref GIT_REFS_TAGS_DIR = 0 →
            is_success (@git_reference_name_to_id model
                          (repo_refdb catalog_repo) ref) = true) as Hres.
  { intros ref Hin _. vm_compute in Hin.
    repeat (apply elem_of_cons in Hin as [->|Hin]); try reflexivity.
    by apply elem_of_nil in Hin. }
  split; intros short.
  - rewrite (proj1 (@tag_list_match_filter model catalog_repo (cstr "v1.*")
                      _ eq_refl Hres)).
    match goal with
    | |- context [(?l, 0).1] =>
        let v := eval vm_compute in l in change ((l, 0).1) with v
    end.
    rewrite !elem_of_cons, elem_of_nil. unfold cstr. simpl. tauto.
  - unfold git_tag_list.
    rewrite (proj1 (@tag_list_match_filter model catalog_repo [] _ eq_refl Hres)).
    match goal with
    | |- context [(?l, 0).1] =>
        let v := eval vm_compute in l in change ((l, 0).1) with v
    end.
    rewrite !elem_of_cons, elem_of_nil. unfold cstr. simpl. tauto.
Defined.

(** C8 as stated does not hold for every set of tag references: next to a
    tag whose reference does not resolve, the tag refs/tags/v1 is
    enumerated and resolves, and the listing does not hold its name. *)
Lemma lists_every_tag_fails :
  @git_reference_names model (repo_refdb dangling_repo)
  = Success [cstr "refs/tags/broken"; cstr "refs/tags/v1"]
  ∧ @git_reference_name_to_id model (repo_refdb dangling_repo)
      (cstr "refs/tags/v1") = Success sample_id
  ∧ (@git_tag_list model dangling_repo).1 = []
  ∧ ¬ @lists_every_tag model dangling_repo.
Proof.
  split; [reflexivity|]. split; [reflexivity|]. split; [reflexivity|].
  intros Hall.
  destruct (Hall [cstr "refs/tags/broken"; cstr "refs/tags/v1"] eq_refl
              (cstr "v1")) as [_ Hlisted].
  assert (cstr "v1" ∈ (@git_tag_list model dangling_repo).1) as Hin.
  { apply Hlisted. apply list_elem_of_further, list_elem_of_here. }
  change ((@git_tag_list model dangling_repo).1) with (@nil bytes) in Hin.
  by apply elem_of_nil in Hin.
Qed.

(** Deleting the annotated tag v1 of a repository: the reference is gone,
    the tag object and its target are read as before. *)
Lemma tag_delete_frame_witness :
  let created :=
    @git_tag_create model sample_repo (cstr "v1") sample_target sample_tagger
      (cstr "first release") false in
  let deleted := (@git_tag_delete model created.1 (cstr "v1")).1 in
  repo_odb deleted = repo_odb created.1
  ∧ @git_reference_lookup model (repo_refdb deleted) (cstr "refs/tags/v1")
    = Failure GIT_ENOTFOUND model_ref_not_found
  ∧ ∃ tag_id odb,
      created.2 = Success tag_id
      ∧ repo_odb deleted = Success odb
      ∧ is_success (@git_odb_read model odb tag_id) = true
      ∧ @git_odb_read model odb sample_id
        = Success (GIT_OBJ_COMMIT, cstr "tree 89ab").
Proof.
  intros created deleted. split.
  - apply (proj1 (@tag_delete_frame model created.1 (cstr "v1"))).
  - split; [reflexivity|]. eexists _, _.
    split; [reflexivity|]. split; [reflexivity|]. split; reflexivity.
Defined.

(** Deleting one tag of a repository with several references leaves the
    other references bound. *)
Lemma tag_delete_keeps_other_references :
  let deleted := (@git_tag_delete model catalog_repo (cstr "v1.0")).1 in
  @git_reference_lookup model (repo_refdb deleted) (cstr "refs/tags/v1.0")
  = Failure GIT_ENOTFOUND model_ref_not_found
  ∧ @git_reference_name_to_id model (repo_refdb deleted) (cstr "refs/tags/v1.1")
    = Success sample_id
  ∧ @git_reference_name_to_id model (repo_refdb deleted) (cstr "refs/heads/v1.9")
    = Success other_id.
Proof. by split; [|split]. Qed.

(** * Further properties of the parser *)

Section Grammar.
Context `{Collaborators}.

(** An entry of [tag_types] is the name of its type and a newline. *)
Lemma tag_types_entry (i : Z) (n : bytes) :
  (i, n) ∈ tag_types →
  n = git_object_type2string i ++ [LF]
  ∧ i ∈ [GIT_OBJ_COMMIT; GIT_OBJ_TREE; GIT_OBJ_BLOB; GIT_OBJ_TAG].
Proof.
  unfold tag_types. intros Hin.
  repeat (apply elem_of_cons in Hin as [[= -> ->]|Hin]);
    [split; [reflexivity|by repeat constructor]..|by apply elem_of_nil in Hin].
Qed.

(** What the object, type and tag lines of an accepted buffer look like. *)
Lemma parse_header_sound tag buffer tag' (rest : bytes) :
  parse_header tag buffer = (tag', Success rest) →
  ∃ id b i n name,
    git_oid__parse (target tag) buffer (cstr "object ") = (id, Some b)
    ∧ (i, n) ∈ tag_types ∧ (LF ∉ name)
    ∧ b = cstr "type " ++ n ++ cstr "tag " ++ name ++ LF :: rest
    ∧ tag' = Build_git_tag id i (Some name) (tagger tag) (message tag).
Proof.
  unfold parse_header, and_then, parse_object_field.
  destruct (git_oid__parse _ _ _) as [oid [b|]] eqn:Hoid; [|done]. simpl.
  unfold parse_type_field.
  case_decide; [done|]. case_decide as Hmark; [done|].
  destruct (match_tag_type _ _ _) as [tag2 [b2|code e]] eqn:Hloop; [|done].
  case_decide as Hbad; [done|].
  unfold parse_tag_field.
  case_decide; [done|]. case_decide as Hmark2; [done|].
  destruct (memchr LF (drop 4 b2)) as [text_len|] eqn:Hsearch; [|done].
  intros [= <- <-]. apply memchr_Some in Hsearch as (Hname & Hlf & _).
  apply match_tag_type_Success in Hloop as [[-> _]|(i & n & Hin & -> & Hb)];
    [done|].
  assert (b = cstr "type " ++ n ++ cstr "tag " ++ take text_len (drop 4 b2)
                ++ LF :: drop (S text_len) (drop 4 b2)) as Hshape.
  { rewrite (take_drop_middle _ _ _ Hlf), <- Hmark2, take_drop, <- Hb, <- Hmark.
    symmetry. apply take_drop. }
  by exists oid, b, i, n, (take text_len (drop 4 b2)).
Qed.

Lemma parse_header_complete tag buffer (id : git_oid) (i : Z)
    (n name rest : bytes) :
  git_oid__parse (target tag) buffer (cstr "object ")
  = (id, Some (cstr "type " ++ n ++ cstr "tag " ++ name ++ LF :: rest)) →
  (i, n) ∈ tag_types → LF ∉ name →
  parse_header tag buffer
  = (Build_git_tag id i (Some name) (tagger tag) (message tag), Success rest).
Proof.
  intros Hoid Hin Hname. apply tag_types_entry in Hin as [-> Hi].
  unfold parse_header, and_then, parse_object_field. rewrite Hoid.
  rewrite <- app_assoc. cbn [app].
  rewrite parse_type_field_line by (done || buffer_length).
  by rewrite parse_tag_field_line.
Qed.

(** X1. The object, type and tag lines are accepted exactly when the
    object-id parser accepts the object line and what follows is the marker
    "type ", one of the four type names with its newline, the marker
    "tag " and a name closed by the first newline; the record then holds
    the id, the index of the type name and the name, its tagger and message
    untouched. The name may be empty. *)
Theorem parse_header_accepts_iff tag buffer tag' (rest : bytes) :
  parse_header tag buffer = (tag', Success rest)
  ↔ ∃ id i n name,
      git_oid__parse (target tag) buffer (cstr "object ")
      = (id, Some (cstr "type " ++ n ++ cstr "tag " ++ name ++ LF :: rest))
      ∧ (i, n) ∈ tag_types ∧ (LF ∉ name)
      ∧ tag' = Build_git_tag id i (Some name) (tagger tag) (message tag).
Proof.
  split.
  - intros Hheader.
    destruct (parse_header_sound _ _ _ _ Hheader)
      as (id & b & i & n & name & Hoid & Hin & Hname & -> & ->).
    by exists id, i, n, name.
  - intros (id & i & n & name & Hoid & Hin & Hname & ->).
    by apply (parse_header_complete _ _ id i n name rest).
Qed.

End Grammar.

Section Tail.
Context `{Collaborators}.

(** What may follow the tag line, and the record it gives: nothing, a
    message after a blank line, or a tagger line that the signature parser
    accepts, itself followed by nothing or by a message. *)
Lemma tag_parse_tail_sound tag buffer tag1 (rest : bytes) out :
  parse_header tag buffer = (tag1, Success rest) →
  tag_parse tag buffer = (out, Success ()) →
  (rest = [] ∧ out = set_message None (set_tagger None tag1))
  ∨ (∃ msg, rest = LF :: msg
            ∧ out = set_message (Some msg) (set_tagger None tag1))
  ∨ ∃ sig rest2,
      (∃ c r, rest = c :: r ∧ c ≠ LF)
      ∧ git_signature__parse rest (cstr "tagger ") LF = (sig, inr rest2)
      ∧ ((rest2 = [] ∧ out = set_message None (set_tagger (Some sig) tag1))
         ∨ ∃ msg, rest2 = LF :: msg
                  ∧ out = set_message (Some msg) (set_tagger (Some sig) tag1)).
Proof.
  intros Hheader. unfold tag_parse, and_then. rewrite Hheader.
  unfold parse_tagger_field. destruct rest as [|c r].
  - unfold parse_message_field. intros [= <-]. by left.
  - case_decide as Hc.
    + destruct (git_signature__parse _ _ _) as [sig [e|rest2]] eqn:Hsig; [done|].
      unfold parse_message_field. destruct rest2 as [|c2 msg].
      * intros [= <-]. right; right. exists sig, []. eauto 10.
      * case_decide as Hc2; [done|]. intros [= <-].
        right; right. exists sig, (c2 :: msg).
        split; [by eauto|]. split; [done|]. right. exists msg. by subst c2.
    + unfold parse_message_field. rewrite decide_False by (by intros []).
      intros [= <-]. right; left. exists r. by subst c.
Qed.

Lemma tag_parse_tail_complete tag buffer tag1 (rest : bytes) :
  parse_header tag buffer = (tag1, Success rest) →
  (rest = [] →
   tag_parse tag buffer = (set_message None (set_tagger None tag1), Success ()))
  ∧ (∀ msg, rest = LF :: msg →
       tag_parse tag buffer
       = (set_message (Some msg) (set_tagger None tag1), Success ()))
  ∧ (∀ sig rest2,
       (∃ c r, rest = c :: r ∧ c ≠ LF) →
       git_signature__parse rest (cstr "tagger ") LF = (sig, inr rest2) →
       (rest2 = [] →
        tag_parse tag buffer
        = (set_message None (set_tagger (Some sig) tag1), Success ()))
       ∧ (∀ msg, rest2 = LF :: msg →
            tag_parse tag buffer
            = (set_message (Some msg) (set_tagger (Some sig) tag1),
               Success ()))).
Proof.
  intros Hheader. unfold tag_parse, and_then. rewrite Hheader.
  split; [by intros ->|]. split.
  - intros msg ->. unfold parse_tagger_field, parse_message_field.
    by rewrite !decide_False by (by intros []).
  - intros sig rest2 (c & r & -> & Hc) Hsig. unfold parse_tagger_field.
    rewrite decide_True by done. rewrite Hsig. split.
    + by intros ->.
    + intros msg ->. unfold parse_message_field.
      by rewrite decide_False by (by intros []).
Qed.

(** X2. After the tag line a buffer is accepted in exactly four shapes:
    it ends (no tagger, no message); a blank line and a message follow (no
    tagger); or a first byte other than a newline starts a tagger line that
    the signature parser accepts, after which the buffer ends (no message)
    or a blank line and a message follow. The tagger line is optional, and
    the message is everything after the blank line, unchanged. *)
Theorem tag_parse_accepts_iff tag buffer tag1 (rest : bytes) out :
  parse_header tag buffer = (tag1, Success rest) →
  tag_parse tag buffer = (out, Success ())
  ↔ (rest = [] ∧ out = set_message None (set_tagger None tag1))
    ∨ (∃ msg, rest = LF :: msg
              ∧ out = set_message (Some msg) (set_tagger None tag1))
    ∨ ∃ sig rest2,
        (∃ c r, rest = c :: r ∧ c ≠ LF)
        ∧ git_signature__parse rest (cstr "tagger ") LF = (sig, inr rest2)
        ∧ ((rest2 = [] ∧ out = set_message None (set_tagger (Some sig) tag1))
           ∨ ∃ msg, rest2 = LF :: msg
                    ∧ out = set_message (Some msg)
                              (set_tagger (Some sig) tag1)).
Proof.
  intros Hheader. split; [by apply tag_parse_tail_sound|].
  destruct (tag_parse_tail_complete _ _ _ _ Hheader) as (Hend & Hmsg & Hsig).
  intros [[-> ->]|[(msg & -> & ->)|(sig & rest2 & Hfirst & Hparse & Hrest2)]].
  - by apply Hend.
  - by apply Hmsg.
  - destruct (Hsig sig rest2 Hfirst Hparse) as [Hend2 Hmsg2].
    destruct Hrest2 as [[-> ->]|(msg & -> & ->)]; [by apply Hend2|by apply Hmsg2].
Qed.

(** A successful parse went through the header. *)
Lemma tag_parse_Success_header tag buffer out :
  tag_parse tag buffer = (out, Success ()) →
  ∃ tag1 rest, parse_header tag buffer = (tag1, Success rest).
Proof.
  unfold tag_parse, and_then.
  destruct (parse_header tag buffer) as [tag1 [rest|code e]]; [by eauto|done].
Qed.

(** A parsed tag has one of the four types and a name without newline. *)
Lemma tag_parse_Success_fields tag buffer out :
  tag_parse tag buffer = (out, Success ()) →
  type out ∈ [GIT_OBJ_COMMIT; GIT_OBJ_TREE; GIT_OBJ_BLOB; GIT_OBJ_TAG]
  ∧ ∃ name, tag_name out = Some name ∧ LF ∉ name.
Proof.
  intros Hparse.
  destruct (tag_parse_Success_header _ _ _ Hparse) as (tag1 & rest & Hheader).
  destruct (parse_header_sound _ _ _ _ Hheader)
    as (id & b & i & n & name & _ & Hin & Hname & _ & ->).
  apply tag_types_entry in Hin as [_ Hi].
  destruct (tag_parse_tail_sound _ _ _ _ _ Hheader Hparse)
    as [[_ ->]|[(msg & _ & ->)|(sig & rest2 & _ & _ & Hrest2)]];
    [by eauto..|].
  destruct Hrest2 as [[_ ->]|(msg & _ & ->)]; by eauto.
Qed.

(** X3. A successful parse overwrites every field of the record: when the
    object-id parser does not read its out-parameter, the record and the
    result do not depend on what the record held before. *)
Theorem tag_parse_overwrites_record (tag tag' : git_tag) buffer out :
  (∀ oid oid' b header id rest,
     git_oid__parse oid b header = (id, Some rest) →
     git_oid__parse oid' b header = (id, Some rest)) →
  tag_parse tag buffer = (out, Success ()) →
  tag_parse tag' buffer = (out, Success ()).
Proof.
  intros Hfresh Hparse.
  destruct (tag_parse_Success_header _ _ _ Hparse) as (tag1 & rest & Hheader).
  destruct (parse_header_sound _ _ _ _ Hheader)
    as (id & b & i & n & name & Hoid & Hin & Hname & -> & ->).
  apply (Hfresh _ (target tag')) in Hoid.
  pose proof (parse_header_complete tag' buffer id i n name rest Hoid Hin Hname)
    as Hheader'.
  destruct (tag_parse_tail_complete _ _ _ _ Hheader') as (Hend & Hmsg & Hsig).
  destruct (tag_parse_tail_sound _ _ _ _ _ Hheader Hparse)
    as [[-> ->]|[(msg & -> & ->)|(sig & rest2 & Hfirst & Hsp & Hrest2)]].
  - by rewrite Hend.
  - by rewrite (Hmsg msg).
  - destruct (Hsig sig rest2 Hfirst Hsp) as [Hend2 Hmsg2].
    destruct Hrest2 as [[-> ->]|(msg & -> & ->)];
      [by rewrite Hend2|by rewrite (Hmsg2 msg)].
Qed.

Lemma memchr_absent (c : ascii) (buffer : bytes) :
  c ∉ buffer → memchr c buffer = None.
Proof.
  induction buffer as [|x rest IH]; [done|]. cbn [memchr].
  intros [Hx Hrest]%not_elem_of_cons.
  rewrite decide_False by congruence. by rewrite IH.
Qed.

(** A buffer without NUL is read whole through a [char *]. *)
Lemma c_string_whole (b : bytes) : NUL ∉ b → c_string b = b.
Proof. intros Hb. unfold c_string. by rewrite memchr_absent. Qed.

(** X4. Parsing is undone by the serializer: when the object-id and
    signature parsers accept only what their writers produce, an accepted
    buffer that has a tagger and a message, and in whose name and message
    no NUL occurs, is byte for byte the buffer that [write_tag_annotation]
    builds from the parsed fields, the name and the message read as the C
    strings that the serializer prints. *)
Theorem tag_parse_then_serialize tag buffer out (name : bytes)
    (sig : git_signature) (msg : bytes) (owner : nat) :
  (∀ oid b id rest,
     git_oid__parse oid b (cstr "object ") = (id, Some rest) →
     b = git_oid__writebuf (cstr "object ") id ++ rest) →
  (∀ b s rest,
     git_signature__parse b (cstr "tagger ") LF = (s, inr rest) →
     b = git_signature__writebuf (cstr "tagger ") s ++ rest) →
  tag_parse tag buffer = (out, Success ()) →
  tag_name out = Some name → tagger out = Some sig → message out = Some msg →
  NUL ∉ name → NUL ∉ msg →
  buffer
  = tag_annotation_buffer (c_string name)
      (Build_git_object (target out) (type out) owner) sig (c_string msg).
Proof.
  intros Hoid_exact Hsig_exact Hparse Hn Ht Hm Hname_nul Hmsg_nul.
  rewrite !c_string_whole by done.
  destruct (tag_parse_Success_header _ _ _ Hparse) as (tag1 & rest & Hheader).
  destruct (parse_header_sound _ _ _ _ Hheader)
    as (id & b & i & n & name' & Hoid & Hin & Hname & -> & ->).
  apply tag_types_entry in Hin as [-> _].
  destruct (tag_parse_tail_sound _ _ _ _ _ Hheader Hparse)
    as [[-> ->]|[(m & -> & ->)|(s & rest2 & _ & Hsp & Hrest2)]]; [done..|].
  destruct Hrest2 as [[-> ->]|(m & -> & ->)]; [done|].
  simpl in Hn, Ht, Hm. injection Hn as ->. injection Ht as ->. injection Hm as ->.
  rewrite tag_annotation_buffer_lines. cbn [git_object_id git_object_type].
  cbn [target type set_message set_tagger].
  rewrite (Hoid_exact _ _ _ _ Hoid), (Hsig_exact _ _ _ Hsp).
  by rewrite <- !app_assoc.
Qed.

End Tail.

(** * Further properties of creation *)

Section Creation.
Context `{Collaborators}.

(** X5. A lightweight tag writes no object: whatever
    [git_tag_create_lightweight] returns, the object database and the
    identity of the repository are as before; when it succeeds the id it
    returns is the target's own id, and the reference store is the one left
    by the creation of refs/tags/<name> with that id. *)
Theorem tag_create_lightweight_frame (repo : git_repository) (name : bytes)
    (target : git_object) (allow_ref_overwrite : bool) :
  let out := git_tag_create_lightweight repo name target allow_ref_overwrite in
  repo_odb out.1 = repo_odb repo
  ∧ repo_addr out.1 = repo_addr repo
  ∧ ∀ oid, out.2 = Success oid →
      oid = git_object_id target
      ∧ git_reference_create (repo_refdb repo) (GIT_REFS_TAGS_DIR ++ name)
          (git_object_id target) allow_ref_overwrite
        = (repo_refdb out.1, Success ()).
Proof.
  unfold git_tag_create_lightweight, git_tag_create__internal,
    retrieve_tag_reference_oid, git_buf_joinpath.
  case_decide; [done|].
  destruct (git_reference_name_to_id _ _) as [found|code e];
    [destruct allow_ref_overwrite|case_decide]; try done; cbn zeta iota.
  all: destruct (git_reference_create _ _ _ _) as [refs [[]|c e']] eqn:Hbind;
         [|done].
  all: split; [done|]; split; [done|]; by intros oid [= <-].
Qed.

(** X6. [git_tag_annotation_create] creates no reference and reports one
    error only: the reference store and the identity of the repository are
    as before; a failure is always code -1 with "Failed to create tag
    annotation.", whatever the store reported; a success has written the
    serialized annotation as a tag object and returns the id the write
    gave. *)
Theorem tag_annotation_create_frame (repo : git_repository) (name : bytes)
    (target : git_object) (tagger : git_signature) (message : bytes) :
  let out := git_tag_annotation_create repo name target tagger message in
  repo_refdb out.1 = repo_refdb repo
  ∧ repo_addr out.1 = repo_addr repo
  ∧ (∀ code e, out.2 = Failure code e → code = -1 ∧ e = annotation_error)
  ∧ (∀ oid, out.2 = Success oid →
       ∃ odb odb',
         repo_odb repo = Success odb
         ∧ git_odb_write odb (tag_annotation_buffer name target tagger message)
             GIT_OBJ_TAG = (odb', Success oid)
         ∧ repo_odb out.1 = Success odb').
Proof.
  unfold git_tag_annotation_create, write_tag_annotation,
    git_repository_odb__weakptr.
  destruct (repo_odb repo) as [odb|code e] eqn:Hodb.
  - destruct (git_odb_write _ _ _) as [odb' [oid|code e]] eqn:Hwrite; simpl.
    + split; [done|]. split; [done|]. split; [done|].
      intros ? [= <-]. by exists odb, odb'.
    + split; [done|]. split; [done|]. split; [|done]. by intros ?? [= <- <-].
  - simpl. split; [done|]. split; [done|]. split; [|done]. by intros ?? [= <- <-].
Qed.

(** What a successful annotated creation did. *)
Lemma create_annotated_Success (repo : git_repository) (name : bytes)
    (target : git_object) (tagger : git_signature) (message : bytes)
    (allow_ref_overwrite : bool) (repo' : git_repository) (oid : git_oid) :
  git_tag_create repo name target tagger message allow_ref_overwrite
  = (repo', Success oid) →
  git_object_owner target = repo_addr repo
  ∧ ∃ odb odb',
      repo_odb repo = Success odb
      ∧ git_odb_write odb (tag_annotation_buffer name target tagger message)
          GIT_OBJ_TAG = (odb', Success oid)
      ∧ repo_odb repo' = Success odb'
      ∧ git_reference_create (repo_refdb repo) (GIT_REFS_TAGS_DIR ++ name) oid
          allow_ref_overwrite = (repo_refdb repo', Success ())
      ∧ repo' = with_refdb (repo_refdb repo') (with_odb odb' repo)
      ∧ match git_reference_name_to_id (repo_refdb repo)
                (GIT_REFS_TAGS_DIR ++ name) with
        | Success _ => allow_ref_overwrite = true
        | Failure code _ => code = GIT_ENOTFOUND
        end.
Proof.
  unfold git_tag_create, git_tag_create__internal, retrieve_tag_reference_oid,
    git_buf_joinpath.
  case_decide as Howner; [done|].
  destruct (git_reference_name_to_id _ _) as [found|code e];
    [destruct allow_ref_overwrite|case_decide]; try done; cbn zeta iota.
  all: unfold write_tag_annotation, git_repository_odb__weakptr.
  all: destruct (repo_odb repo) as [odb|c1 e1] eqn:Hodb; [|done].
  all: destruct (git_odb_write _ _ _) as [odb' [id|c2 e2]] eqn:Hwrite; [|done].
  all: simpl.
  all: destruct (git_reference_create _ _ _ _) as [refs [[]|c3 e3]] eqn:Hbind;
         [|done].
  all: intros [= <- <-]; split; [done|]; by exists odb, odb'.
Qed.

(** X7. An annotated creation can be followed back: on stores that read
    back what was written and resolve a created reference to its id, after
    [git_tag_create] succeeds the name refs/tags/<name> resolves to the
    returned id and the object read under that id is a tag object whose
    bytes are the serialization of the arguments. *)
Theorem tag_create_stores_annotation (repo : git_repository) (name : bytes)
    (target : git_object) (tagger : git_signature) (message : bytes)
    (allow_ref_overwrite : bool) (repo' : git_repository) (oid : git_oid) :
  (∀ odb data type odb' id,
     git_odb_write odb data type = (odb', Success id) →
     git_odb_read odb' id = Success (type, data)) →
  (∀ refs ref_name id force refs',
     git_reference_create refs ref_name id force = (refs', Success ()) →
     git_reference_name_to_id refs' ref_name = Success id) →
  git_tag_create repo name target tagger message allow_ref_overwrite
  = (repo', Success oid) →
  git_reference_name_to_id (repo_refdb repo') (GIT_REFS_TAGS_DIR ++ name)
  = Success oid
  ∧ ∃ odb',
      repo_odb repo' = Success odb'
      ∧ git_odb_read odb' oid
        = Success (GIT_OBJ_TAG,
                   tag_annotation_buffer name target tagger message).
Proof.
  intros Hread Hbound Hcreate.
  apply create_annotated_Success in Hcreate
    as (_ & odb & odb' & _ & Hwrite & Hodb' & Hbind & _).
  split; [by eapply Hbound|]. exists odb'. split; [done|]. by eapply Hread.
Qed.

(** X8. [git_tag_create_frombuffer] refuses to replace a tag: when the
    buffer parses, its target is stored with the declared type and the name
    it declares already resolves, a call without overwrite returns
    [GIT_EEXISTS] with "Tag already exists" and the repository as it was:
    the buffer is not written. *)
Theorem create_frombuffer_exists (repo : git_repository) (buffer : bytes)
    (odb : git_odb) (tag : git_tag) (name data : bytes) (bound : git_oid) :
  repo_odb repo = Success odb →
  tag_parse git_tag_zero buffer = (tag, Success ()) →
  tag_name tag = Some name →
  git_odb_read odb (target tag) = Success (type tag, data) →
  git_reference_name_to_id (repo_refdb repo) (GIT_REFS_TAGS_DIR ++ name)
  = Success bound →
  git_tag_create_frombuffer repo buffer false
  = (repo, Failure GIT_EEXISTS (giterr_set GITERR_TAG "Tag already exists")).
Proof.
  intros Hodb Hparse Hname Hread Hfound.
  unfold git_tag_create_frombuffer, git_repository_odb__weakptr,
    retrieve_tag_reference_oid, git_buf_joinpath.
  rewrite Hodb, Hparse, Hread. rewrite decide_False by (intros Hne; by apply Hne).
  rewrite Hname. cbn [from_option]. unfold id. by rewrite Hfound.
Qed.

(** What a successful creation from a buffer did. *)
Lemma create_frombuffer_Success (repo : git_repository) (buffer : bytes)
    (allow_ref_overwrite : bool) (repo' : git_repository) (oid : git_oid) :
  git_tag_create_frombuffer repo buffer allow_ref_overwrite
  = (repo', Success oid) →
  ∃ odb tag data,
    repo_odb repo = Success odb
    ∧ tag_parse git_tag_zero buffer = (tag, Success ())
    ∧ git_odb_read odb (target tag) = Success (type tag, data)
    ∧ git_reference_create (repo_refdb repo)
        (GIT_REFS_TAGS_DIR ++ default [] (tag_name tag)) oid
        allow_ref_overwrite = (repo_refdb repo', Success ()).
Proof.
  unfold git_tag_create_frombuffer, git_repository_odb__weakptr,
    retrieve_tag_reference_oid, git_buf_joinpath.
  destruct (repo_odb repo) as [odb|code e]; [|done].
  destruct (tag_parse git_tag_zero buffer) as [tag [[]|code e]]; [|done].
  destruct (git_odb_read odb (target tag)) as [[stored data]|code e] eqn:Hread;
    [|done].
  case_decide as Htype; [done|]. simpl in Htype.
  destruct (git_reference_name_to_id _ _) as [found|code e];
    [destruct allow_ref_overwrite|case_decide]; try done; cbn zeta iota.
  all: destruct (git_odb_open_wstream odb (length buffer) GIT_OBJ_TAG)
         as [stream|c1 e1]; [|done].
  all: destruct (git_odb_stream_finalize_write odb _)
         as [odb' [id|c2 e2]]; [|done].
  all: destruct (git_reference_create _ _ _ _) as [refs [[]|c3 e3]] eqn:Hbind;
         [|done].
  all: intros [= <- <-]; exists odb, tag, data; by rewrite Htype.
Qed.

(** X9. A tag created from a buffer is bound under the name the buffer
    declares: on a reference store that resolves a created reference to its
    id, after [git_tag_create_frombuffer] succeeds the buffer parses, its
    tag line gives a name, and refs/tags/<that name> resolves to the
    returned id. *)
Theorem create_frombuffer_binds_name (repo : git_repository) (buffer : bytes)
    (allow_ref_overwrite : bool) (repo' : git_repository) (oid : git_oid) :
  (∀ refs ref_name id force refs',
     git_reference_create refs ref_name id force = (refs', Success ()) →
     git_reference_name_to_id refs' ref_name = Success id) →
  git_tag_create_frombuffer repo buffer allow_ref_overwrite
  = (repo', Success oid) →
  ∃ tag name,
    tag_parse git_tag_zero buffer = (tag, Success ())
    ∧ tag_name tag = Some name ∧ (LF ∉ name)
    ∧ git_reference_name_to_id (repo_refdb repo') (GIT_REFS_TAGS_DIR ++ name)
      = Success oid.
Proof.
  intros Hbound Hcall.
  apply create_frombuffer_Success in Hcall
    as (odb & tag & data & _ & Hparse & _ & Hbind).
  destruct (tag_parse_Success_fields _ _ _ Hparse) as (_ & name & Hname & Hlf).
  rewrite Hname in Hbind. exists tag, name.
  split; [done|]. split; [done|]. split; [done|]. by eapply Hbound.
Qed.

(** X10. The two ways to create an annotated tag agree: where the
    serialization of the arguments parses back to them, the target is stored
    with its type, and a stream of the object database commits like a plain
    write, a successful [git_tag_create] and [git_tag_create_frombuffer] on
    the serialized arguments return the same id and leave the same
    repository. *)
Theorem create_frombuffer_like_create (repo : git_repository) (name : bytes)
    (tgt : git_object) (tagger : git_signature) (message : bytes)
    (allow_ref_overwrite : bool) (repo' : git_repository) (oid : git_oid)
    (odb : git_odb) (data : bytes) :
  tag_parse git_tag_zero (tag_annotation_buffer name tgt tagger message)
  = (Build_git_tag (git_object_id tgt) (git_object_type tgt)
       (Some name) (Some tagger) (Some message), Success ()) →
  repo_odb repo = Success odb →
  git_odb_read odb (git_object_id tgt)
  = Success (git_object_type tgt, data) →
  (∀ bytes type,
     ∃ stream,
       git_odb_open_wstream odb (length bytes) type = Success stream
       ∧ git_odb_stream_finalize_write odb (git_odb_stream_write stream bytes)
         = git_odb_write odb bytes type) →
  git_tag_create repo name tgt tagger message allow_ref_overwrite
  = (repo', Success oid) →
  git_tag_create_frombuffer repo
    (tag_annotation_buffer name tgt tagger message) allow_ref_overwrite
  = (repo', Success oid).
Proof.
  intros Hparse Hodb Hread Hstream Hcreate.
  apply create_annotated_Success in Hcreate
    as (_ & odb0 & odb' & Hodb0 & Hwrite & Hodb' & Hbind & -> & Hfound).
  rewrite Hodb in Hodb0. injection Hodb0 as <-.
  unfold git_tag_create_frombuffer, git_repository_odb__weakptr,
    retrieve_tag_reference_oid, git_buf_joinpath.
  rewrite Hodb, Hparse. cbn [target type tag_name from_option]. unfold id.
  rewrite Hread. rewrite decide_False by (intros Hne; by apply Hne).
  destruct (Hstream (tag_annotation_buffer name tgt tagger message)
              GIT_OBJ_TAG) as (stream & Hopen & Hcommit).
  assert (∀ stop : option (git_result git_oid),
            stop = None →
            match stop with
            | Some failure => (repo, failure)
            | None =>
                match
                  git_odb_open_wstream odb
                    (length (tag_annotation_buffer name tgt tagger message))
                    GIT_OBJ_TAG
                with
                | Success stream0 =>
                    let stream1 :=
                      git_odb_stream_write stream0
                        (tag_annotation_buffer name tgt tagger message) in
                    let '(odb'0, error) :=
                      git_odb_stream_finalize_write odb stream1 in
                    match error with
                    | Success oid0 =>
                        let '(refs, error0) :=
                          git_reference_create (repo_refdb repo)
                            (GIT_REFS_TAGS_DIR ++ name) oid0
                            allow_ref_overwrite in
                        (with_refdb refs (with_odb odb'0 repo),
                         match error0 with
                         | Success _ => Success oid0
                         | Failure code e => Failure code e
                         end)
                    | Failure _ e => (with_odb odb'0 repo, Failure (-1) e)
                    end
                | Failure _ e => (repo, Failure (-1) e)
                end
            end
            = (with_refdb (repo_refdb repo') (with_odb odb' repo), Success oid))
    as Hrest.
  { intros stop ->. rewrite Hopen. cbn zeta. rewrite Hcommit, Hwrite.
    by rewrite Hbind. }
  apply Hrest.
  destruct (git_reference_name_to_id _ _) as [found|code e]; [by subst|].
  by rewrite decide_False by (intros Hne; by apply Hne).
Qed.

End Creation.

(** * Further properties of enumeration *)

Section Enumeration.
Context `{Collaborators}.

(** [tags_cb] lets every reference outside the tags namespace pass. *)
Lemma foreach_name_tags_cb {S} (repo : git_repository)
    (cb : git_tag_foreach_cb S) (names : list bytes) (cb_data : S) :
  foreach_name (tags_cb repo cb) names cb_data
  = foreach_name
      (λ ref data,
         match git_reference_name_to_id (repo_refdb repo) ref with
         | Success oid => cb ref oid data
         | Failure error _ => (data, error)
         end)
      (filter (λ ref, git__prefixcmp ref GIT_REFS_TAGS_DIR = 0) names) cb_data.
Proof.
  revert cb_data. induction names as [|ref names IH]; intros cb_data; [done|].
  destruct (decide (git__prefixcmp ref GIT_REFS_TAGS_DIR = 0)) as [Htag|Hother].
  - rewrite filter_cons_True by done. simpl. unfold tags_cb at 1.
    rewrite decide_False by (intros Hne; by apply Hne).
    destruct (git_reference_name_to_id _ _) as [oid|code e];
      [destruct (cb ref oid cb_data) as [data error]|];
      (case_decide; [done|apply IH]).
  - rewrite filter_cons_False by done. simpl. unfold tags_cb at 1.
    rewrite decide_True by done.
    rewrite decide_False by (intros Hne; by apply Hne). apply IH.
Qed.

(** X11. [git_tag_foreach] sees the tags only: it behaves as the
    enumeration of the names under refs/tags/ alone, in the order of the
    reference store, each resolved to its id and handed to the callback;
    a reference outside that namespace is neither resolved nor shown to the
    callback, so it cannot stop or fail the enumeration. *)
Theorem tag_foreach_visits_tags {S} (repo : git_repository)
    (cb : git_tag_foreach_cb S) (cb_data : S) (names : list bytes) :
  git_reference_names (repo_refdb repo) = Success names →
  git_tag_foreach repo cb cb_data
  = foreach_name
      (λ ref data,
         match git_reference_name_to_id (repo_refdb repo) ref with
         | Success oid => cb ref oid data
         | Failure error _ => (data, error)
         end)
      (filter (λ ref, git__prefixcmp ref GIT_REFS_TAGS_DIR = 0) names) cb_data.
Proof.
  intros Hnames. unfold git_tag_foreach, git_reference_foreach_name.
  rewrite Hnames. apply foreach_name_tags_cb.
Qed.

(** A run that returns 0 took every step with 0. *)
Lemma foreach_name_zero {S} (callback : bytes → S → S * Z)
    (names : list bytes) (payload : S) :
  (foreach_name callback names payload).2 = 0 →
  ∀ ref, ref ∈ names → ∃ data, (callback ref data).2 = 0.
Proof.
  revert payload. induction names as [|r names IH]; intros payload; simpl.
  - intros _ ref Hin. by apply elem_of_nil in Hin.
  - destruct (callback r payload) as [payload' error] eqn:Hcall.
    case_decide as Herror.
    + simpl. intros ->. done.
    + subst error. intros Hrest ref Hin.
      apply elem_of_cons in Hin as [->|Hin].
      * exists payload. by rewrite Hcall.
      * by eapply IH.
Qed.

(** X12. No tag is skipped in silence: when the failures of the reference
    store carry a code other than 0 and [git_tag_foreach] returns 0, the
    enumeration of the names succeeded and every reference under refs/tags/
    resolved to an id that was shown to the callback, which answered 0. *)
Theorem tag_foreach_zero {S} (repo : git_repository)
    (cb : git_tag_foreach_cb S) (cb_data : S) :
  (∀ code e, git_reference_names (repo_refdb repo) = Failure code e → code ≠ 0) →
  (∀ ref code e,
     git_reference_name_to_id (repo_refdb repo) ref = Failure code e →
     code ≠ 0) →
  (git_tag_foreach repo cb cb_data).2 = 0 →
  ∃ names,
    git_reference_names (repo_refdb repo) = Success names
    ∧ ∀ ref, ref ∈ names → git__prefixcmp ref GIT_REFS_TAGS_DIR = 0 →
        ∃ oid data,
          git_reference_name_to_id (repo_refdb repo) ref = Success oid
          ∧ (cb ref oid data).2 = 0.
Proof.
  intros Hiter Hresolve Hzero.
  unfold git_tag_foreach, git_reference_foreach_name in Hzero.
  destruct (git_reference_names (repo_refdb repo)) as [names|code e] eqn:Hnames.
  - exists names. split; [done|]. intros ref Hin Htag.
    destruct (foreach_name_zero _ _ _ Hzero ref Hin) as [data Hstep].
    unfold tags_cb in Hstep. rewrite decide_False in Hstep
      by (intros Hne; by apply Hne).
    destruct (git_reference_name_to_id _ _) as [oid|code e] eqn:Hid.
    + by exists oid, data.
    + simpl in Hstep. by apply Hresolve in Hid.
  - simpl in Hzero. by destruct (Hiter code e eq_refl).
Qed.

(** The enumeration stops at the first step that does not return 0. *)
Lemma foreach_name_stops_at {S} (callback : bytes → S → S * Z)
    (before after : list bytes) (ref : bytes) (payload : S) (error : Z) :
  (∀ r data, r ∈ before → (callback r data).2 = 0) →
  (∀ data, (callback ref data).2 = error) → error ≠ 0 →
  (foreach_name callback (before ++ ref :: after) payload).2 = error.
Proof.
  intros Hbefore Href Hstop. revert payload.
  induction before as [|r before IH]; intros payload; simpl.
  - specialize (Href payload).
    destruct (callback ref payload) as [payload' e]. simpl in Href. subst e.
    by rewrite decide_True.
  - pose proof (Hbefore r payload (list_elem_of_here _ _)) as Hr.
    destruct (callback r payload) as [payload' e]. simpl in Hr. subst e.
    rewrite decide_False by (intros Hne; by apply Hne).
    apply IH. intros r' data Hin. apply Hbefore. by apply list_elem_of_further.
Qed.

(** X13. [git_tag_foreach] stops at the first tag that does not go
    through and returns its value: when every tag enumerated before
    resolves and the callback answers 0 on it, a tag that fails to resolve
    makes the call return the code of that failure, and a tag on which the
    callback answers a value other than 0 makes the call return that
    value; what comes after is not looked at. *)
Theorem tag_foreach_stops (S : Type) (repo : git_repository)
    (cb : git_tag_foreach_cb S) (cb_data : S) (before after : list bytes)
    (ref : bytes) (error : Z) :
  git_reference_names (repo_refdb repo) = Success (before ++ ref :: after) →
  (∀ r, r ∈ before → git__prefixcmp r GIT_REFS_TAGS_DIR = 0 →
     ∃ oid, git_reference_name_to_id (repo_refdb repo) r = Success oid
            ∧ ∀ data, (cb r oid data).2 = 0) →
  git__prefixcmp ref GIT_REFS_TAGS_DIR = 0 →
  error ≠ 0 →
  ((∃ e, git_reference_name_to_id (repo_refdb repo) ref = Failure error e)
   ∨ ∃ oid, git_reference_name_to_id (repo_refdb repo) ref = Success oid
            ∧ ∀ data, (cb ref oid data).2 = error) →
  (git_tag_foreach repo cb cb_data).2 = error.
Proof.
  intros Hnames Hbefore Htag Hstop Href.
  unfold git_tag_foreach, git_reference_foreach_name. rewrite Hnames.
  apply foreach_name_stops_at; [| |done].
  - intros r data Hin. unfold tags_cb. case_decide as Hr; [done|].
    destruct (Hbefore r Hin Hr) as (oid & -> & Hcb). apply Hcb.
  - intros data. unfold tags_cb.
    rewrite decide_False by (intros Hne; by apply Hne).
    destruct Href as [[e ->]|(oid & -> & Hcb)]; [done|apply Hcb].
Qed.

(** The listing, when every tag resolves. *)
Lemma tag_list_match_value (repo : git_repository) (pat : bytes)
    (names : list bytes) :
  git_reference_names (repo_refdb repo) = Success names →
  (∀ ref, ref ∈ names → git__prefixcmp ref GIT_REFS_TAGS_DIR = 0 →
     is_success (git_reference_name_to_id (repo_refdb repo) ref) = true) →
  (git_tag_list_match pat repo).1
  = drop GIT_REFS_TAGS_DIR_LEN <$> filter (tag_matches pat) names.
Proof.
  intros Hnames Hres.
  unfold git_tag_list_match, git_tag_foreach, git_reference_foreach_name.
  rewrite Hnames, foreach_tag_list by done. by rewrite decide_False by lia.
Qed.

(** X14. The listing holds a name once: when the reference store
    enumerates every name once and every tag resolves, the list of
    [git_tag_list_match] has no duplicates and is not longer than the
    enumeration. *)
Theorem tag_list_match_NoDup (repo : git_repository) (pat : bytes)
    (names : list bytes) :
  git_reference_names (repo_refdb repo) = Success names →
  (∀ ref, ref ∈ names → git__prefixcmp ref GIT_REFS_TAGS_DIR = 0 →
     is_success (git_reference_name_to_id (repo_refdb repo) ref) = true) →
  NoDup names →
  NoDup (git_tag_list_match pat repo).1
  ∧ (length (git_tag_list_match pat repo).1 ≤ length names)%nat.
Proof.
  intros Hnames Hres Hnodup. rewrite (tag_list_match_value _ _ _ Hnames Hres).
  split.
  - apply NoDup_fmap_2_strong; [|by apply NoDup_filter].
    intros x y Hx Hy Heq.
    apply list_elem_of_filter in Hx as [[Hx _] _].
    apply list_elem_of_filter in Hy as [[Hy _] _].
    apply tags_dir_prefix in Hx as [sx ->]. apply tags_dir_prefix in Hy as [sy ->].
    change (drop GIT_REFS_TAGS_DIR_LEN (GIT_REFS_TAGS_DIR ++ ?s)) with s in Heq.
    by rewrite Heq.
  - rewrite length_fmap. apply length_filter.
Qed.

(** X15. A pattern only narrows the listing: when every tag resolves, what
    [git_tag_list_match] returns for a pattern is a sublist of what
    [git_tag_list] returns, so every name it lists is a tag and the order
    is the same. *)
Theorem tag_list_match_sublist (repo : git_repository) (pat : bytes)
    (names : list bytes) :
  git_reference_names (repo_refdb repo) = Success names →
  (∀ ref, ref ∈ names → git__prefixcmp ref GIT_REFS_TAGS_DIR = 0 →
     is_success (git_reference_name_to_id (repo_refdb repo) ref) = true) →
  (git_tag_list_match pat repo).1 `sublist_of` (git_tag_list repo).1.
Proof.
  intros Hnames Hres. unfold git_tag_list.
  rewrite !(tag_list_match_value _ _ _ Hnames Hres).
  apply fmap_sublist.
  rewrite <- (list_filter_filter_l (tag_matches pat) (tag_matches [])).
  - apply sublist_filter.
  - intros ref [Htag _]. split; [done|by left].
Qed.

(** X16. A tag that was created is listed: when, after a successful
    [git_tag_create_lightweight] or [git_tag_create], the reference store
    enumerates the name it was given and every tag resolves, [git_tag_list]
    holds the short name of the new tag: the prefix refs/tags/ added at
    creation is the one removed at listing. *)
Theorem tag_created_is_listed (repo : git_repository) (name : bytes)
    (target : git_object) annotation (allow_ref_overwrite : bool)
    (repo' : git_repository) (oid : git_oid) (names : list bytes) :
  (∀ refs ref_name id force refs' listed,
     git_reference_create refs ref_name id force = (refs', Success ()) →
     git_reference_names refs' = Success listed → ref_name ∈ listed) →
  git_tag_create__internal repo name target annotation allow_ref_overwrite
  = (repo', Success oid) →
  git_reference_names (repo_refdb repo') = Success names →
  (∀ ref, ref ∈ names → git__prefixcmp ref GIT_REFS_TAGS_DIR = 0 →
     is_success (git_reference_name_to_id (repo_refdb repo') ref) = true) →
  name ∈ (git_tag_list repo').1.
Proof.
  intros Hlisted Hcreate Hnames Hres.
  apply create_internal_Success in Hcreate as [_ Hbind].
  pose proof (Hlisted _ _ _ _ _ _ Hbind Hnames) as Hin.
  unfold git_tag_list. rewrite (tag_list_match_value _ _ _ Hnames Hres).
  apply list_elem_of_fmap. exists (GIT_REFS_TAGS_DIR ++ name). split; [done|].
  apply list_elem_of_filter. split; [|done].
  split; [|by left]. apply tags_dir_prefix. by exists name.
Qed.

End Enumeration.

(** * Frames and failures *)

Section Frames.
Context `{Collaborators}.

(** X17. A tag that was deleted is no longer listed: when a successful
    [git_tag_delete] is followed by an enumeration that no longer yields
    the deleted reference and every remaining tag resolves, [git_tag_list]
    does not hold the name. *)
Theorem tag_deleted_is_not_listed (repo : git_repository) (name : bytes)
    (repo' : git_repository) (names : list bytes) :
  (∀ refs ref_name ref refs' listed,
     git_reference_lookup refs ref_name = Success ref →
     git_reference_delete refs ref = (refs', Success ()) →
     git_reference_names refs' = Success listed → ref_name ∉ listed) →
  git_tag_delete repo name = (repo', Success ()) →
  git_reference_names (repo_refdb repo') = Success names →
  (∀ ref, ref ∈ names → git__prefixcmp ref GIT_REFS_TAGS_DIR = 0 →
     is_success (git_reference_name_to_id (repo_refdb repo') ref) = true) →
  name ∉ (git_tag_list repo').1.
Proof.
  intros Hgone Hdelete Hnames Hres.
  assert (GIT_REFS_TAGS_DIR ++ name ∉ names) as Hout.
  { revert Hdelete. unfold git_tag_delete, retrieve_tag_reference,
      git_buf_joinpath.
    destruct (git_reference_lookup _ _) as [ref|code e] eqn:Hlookup; [|done].
    destruct (git_reference_delete _ _) as [refs [[]|code e]] eqn:Hdel; [|done].
    intros [= <-]. by eapply Hgone. }
  unfold git_tag_list. rewrite (tag_list_match_value _ _ _ Hnames Hres).
  intros Hin. apply list_elem_of_fmap in Hin as (ref & -> & Hin).
  apply list_elem_of_filter in Hin as [[Htag _] Hin].
  apply tags_dir_prefix in Htag as [short ->]. by apply Hout.
Qed.

(** X18. The codes of a failing [git_tag_create_frombuffer]: it fails with
    -1, whatever code the parser, the object database or the lookup of the
    name reported, or with [GIT_EEXISTS], and in both cases the reference
    store is as before; any other failure is the failure of the final
    [git_reference_create], returned as it is. *)
Theorem create_frombuffer_failure_codes (repo : git_repository)
    (buffer : bytes) (allow_ref_overwrite : bool) (repo' : git_repository)
    (code : Z) (e : git_error) :
  git_tag_create_frombuffer repo buffer allow_ref_overwrite
  = (repo', Failure code e) →
  ((code = -1 ∨ code = GIT_EEXISTS) ∧ repo_refdb repo' = repo_refdb repo)
  ∨ ∃ ref_name oid,
      git_reference_create (repo_refdb repo) ref_name oid allow_ref_overwrite
      = (repo_refdb repo', Failure code e).
Proof.
  unfold git_tag_create_frombuffer, git_repository_odb__weakptr,
    retrieve_tag_reference_oid, git_buf_joinpath.
  destruct (repo_odb repo) as [odb|c0 e0]; [|intros [= <- <- <-]; by left; eauto].
  destruct (tag_parse git_tag_zero buffer) as [tag [[]|c1 e1]];
    [|intros [= <- <- <-]; by left; eauto].
  destruct (git_odb_read odb (target tag)) as [obj|c2 e2];
    [|intros [= <- <- <-]; by left; eauto].
  case_decide; [intros [= <- <- <-]; by left; eauto|].
  destruct (git_reference_name_to_id _ _) as [found|c3 e3];
    [destruct allow_ref_overwrite|case_decide]; cbn zeta iota;
    try (intros [= <- <- <-]; by left; eauto).
  all: destruct (git_odb_open_wstream odb (length buffer) GIT_OBJ_TAG)
         as [stream|c4 e4]; [|intros [= <- <- <-]; by left; eauto].
  all: destruct (git_odb_stream_finalize_write odb _) as [odb' [id|c5 e5]];
         [|intros [= <- <- <-]; by left; eauto].
  all: destruct (git_reference_create _ _ _ _) as [refs [[]|c6 e6]] eqn:Hbind;
         [done|].
  all: intros [= <- <- <-]; right; by eauto.
Qed.

(** X19. A creation touches the reference store in one place: whatever
    [git_tag_create] or [git_tag_create_lightweight] returns (both are
    [git_tag_create__internal]), the reference store is as before, or it is
    the one left by a single [git_reference_create] of refs/tags/<name>,
    whose outcome is then the outcome of the call. A target owned by
    another repository is refused with -1 before the name is looked up. *)
Theorem tag_create_reference_frame (repo : git_repository) (name : bytes)
    (target : git_object) annotation (allow_ref_overwrite : bool) :
  let out :=
    git_tag_create__internal repo name target annotation allow_ref_overwrite in
  (git_object_owner target ≠ repo_addr repo →
   out = (repo, Failure (-1) (giterr_set GITERR_INVALID
            "The given target does not belong to this repository")))
  ∧ (repo_refdb out.1 = repo_refdb repo ∧ is_success out.2 = false
     ∨ ∃ oid,
         (git_reference_create (repo_refdb repo) (GIT_REFS_TAGS_DIR ++ name)
            oid allow_ref_overwrite).1 = repo_refdb out.1
         ∧ match (git_reference_create (repo_refdb repo)
                    (GIT_REFS_TAGS_DIR ++ name) oid allow_ref_overwrite).2 with
           | Success _ => out.2 = Success oid
           | Failure code e => out.2 = Failure code e
           end).
Proof.
  unfold git_tag_create__internal, retrieve_tag_reference_oid, git_buf_joinpath.
  case_decide as Howner; [split; [done|by left]|].
  split; [done|].
  destruct (git_reference_name_to_id _ _) as [found|code e];
    [destruct allow_ref_overwrite|case_decide]; cbn zeta iota;
    try (by left).
  all: destruct annotation as [[tagger message]|].
  all: try (pose proof (write_tag_annotation_frame repo name target tagger
                          message) as [_ Hrefs];
            destruct (write_tag_annotation _ _ _ _ _) as [repo1 [id|c1 e1]];
            simpl in Hrefs; [rewrite Hrefs|by left]).
  all: right; eexists;
       destruct (git_reference_create _ _ _ _) as [refs [[]|c2 e2]] eqn:Hbind;
       by rewrite Hbind.
Qed.

End Frames.

(** * The model and the further properties *)

Lemma model_oid_fresh (oid oid' b header id rest : bytes) :
  model_oid__parse oid b header = (id, Some rest) →
  model_oid__parse oid' b header = (id, Some rest).
Proof.
  unfold model_oid__parse. repeat case_decide; try done.
  by destruct (forallb is_hex_digit _).
Qed.

Lemma model_oid_exact (oid b header id rest : bytes) :
  model_oid__parse oid b header = (id, Some rest) →
  b = model_oid__writebuf header id ++ rest.
Proof.
  unfold model_oid__parse, model_oid__writebuf.
  case_decide as Hlen; [done|]. case_decide as Hheader; [done|].
  case_decide as Hnewline; [done|].
  destruct (forallb is_hex_digit _); [|done]. intros [= <- <-].
  rewrite <- !app_assoc.
  rewrite <- (take_drop (length header) b) at 1. rewrite Hheader. f_equal.
  rewrite <- (take_drop GIT_OID_HEXSZ (drop (length header) b)) at 1. f_equal.
  rewrite drop_drop.
  destruct (drop (length header + GIT_OID_HEXSZ) b) as [|c tail] eqn:Htail;
    [done|].
  injection Hnewline as ->. cbn [app]. f_equal.
  rewrite <- drop_drop, Htail. done.
Qed.

Lemma model_signature_exact (b header sig rest : bytes) :
  model_signature__parse b header LF = (sig, inr rest) →
  b = model_signature__writebuf header sig ++ rest.
Proof.
  unfold model_signature__parse, model_signature__writebuf.
  destruct (memchr LF b) as [n|] eqn:Hsearch; [|done].
  case_decide as Hheader; [|done]. intros [= <- <-].
  apply memchr_Some in Hsearch as (_ & Hender & _).
  rewrite <- (take_drop_middle _ _ _ Hender) at 1.
  rewrite <- !app_assoc, app_assoc. cbn [app]. f_equal.
  rewrite <- (take_drop (length header) (take n b)) at 1. by rewrite Hheader.
Qed.

Lemma model_odb_write_read (odb : gmap bytes (Z * bytes)) (data : bytes)
    (type : Z) (odb' : gmap bytes (Z * bytes)) (id : bytes) :
  model_odb_write odb data type = (odb', Success id) →
  model_odb_read odb' id = Success (type, data).
Proof.
  unfold model_odb_write, model_odb_read. intros [= <- <-].
  by rewrite lookup_insert_eq.
Qed.

Lemma model_resolve_code (nesting : nat) (refs : gmap bytes model_ref)
    (name : bytes) (code : Z) (e : git_error) :
  model_resolve nesting refs name = Failure code e → code ≠ 0.
Proof.
  revert name. induction nesting as [|nesting IH]; intros name; simpl.
  - destruct (refs !! name) as [[id|target]|]; by intros [= <- <-].
  - destruct (refs !! name) as [[id|target]|]; [done|apply IH|by intros [= <- <-]].
Qed.

Lemma model_created_is_enumerated (refs : gmap bytes model_ref)
    (name id : bytes) (force : bool) (refs' : gmap bytes model_ref)
    (listed : list bytes) :
  model_reference_create refs name id force = (refs', Success ()) →
  model_reference_names refs' = Success listed → name ∈ listed.
Proof.
  unfold model_reference_create, model_reference_names.
  intros Hcreate [= <-].
  assert (refs' = <[name := OidRef id]> refs) as ->
    by (destruct (refs !! name); [destruct force|]; by injection Hcreate).
  apply list_elem_of_fmap. exists (name, OidRef id). split; [done|].
  apply elem_of_map_to_list. by rewrite lookup_insert_eq.
Qed.

Lemma model_deleted_is_not_enumerated (refs : gmap bytes model_ref)
    (name ref : bytes) (refs' : gmap bytes model_ref) (listed : list bytes) :
  model_reference_lookup refs name = Success ref →
  model_reference_delete refs ref = (refs', Success ()) →
  model_reference_names refs' = Success listed → name ∉ listed.
Proof.
  unfold model_reference_lookup, model_reference_delete, model_reference_names.
  destruct (refs !! name) eqn:Hname; [|done]. intros [= <-].
  rewrite Hname. intros [= <-] [= <-].
  intros Hin. apply list_elem_of_fmap in Hin as ([n r] & -> & Hin).
  apply elem_of_map_to_list in Hin. simpl in Hin.
  by rewrite lookup_delete_eq in Hin.
Qed.

(** Every tag of a model repository resolves, for repositories given by
    their list of references. *)
Ltac tags_resolve :=
  let Hin := fresh "Hin" in
  intros ? Hin _; vm_compute in Hin;
  repeat (apply elem_of_cons in Hin as [->|Hin]); try reflexivity;
  by apply elem_of_nil in Hin.

Lemma tag_parse_accepts_iff_witness :
  @tag_parse model (@git_tag_zero model) plain_buffer
  = (@Build_git_tag model sample_id GIT_OBJ_COMMIT (Some (cstr "v1")) None
       (Some (cstr "note")), Success ()).
Proof.
  apply (@tag_parse_accepts_iff model (@git_tag_zero model) plain_buffer
           (@Build_git_tag model sample_id GIT_OBJ_COMMIT (Some (cstr "v1"))
              None None)
           (LF :: cstr "note")); [reflexivity|].
  right; left. by exists (cstr "note").
Defined.

Lemma tag_parse_overwrites_record_witness :
  @tag_parse model
    (@Build_git_tag model other_id GIT_OBJ_TREE (Some (cstr "old"))
       (Some (cstr "someone")) (Some (cstr "stale")))
    plain_buffer
  = (@Build_git_tag model sample_id GIT_OBJ_COMMIT (Some (cstr "v1")) None
       (Some (cstr "note")), Success ()).
Proof.
  apply (@tag_parse_overwrites_record model (@git_tag_zero model)).
  - apply model_oid_fresh.
  - reflexivity.
Defined.

Lemma tag_parse_then_serialize_witness :
  sample_buffer ++ [LF] ++ cstr "first release"
  = @tag_annotation_buffer model (c_string (cstr "v1"))
      (@Build_git_object model sample_id GIT_OBJ_COMMIT 1) sample_tagger
      (c_string (cstr "first release")).
Proof.
  apply (@tag_parse_then_serialize model (@git_tag_zero model)
           (sample_buffer ++ [LF] ++ cstr "first release")
           (@Build_git_tag model sample_id GIT_OBJ_COMMIT (Some (cstr "v1"))
              (Some sample_tagger) (Some (cstr "first release")))).
  - intros oid b id rest. apply model_oid_exact.
  - intros b s rest. apply model_signature_exact.
  - reflexivity.
  - reflexivity.
  - reflexivity.
  - reflexivity.
  - no_newline.
  - no_newline.
Defined.

Lemma tag_create_stores_annotation_witness :
  let created :=
    @git_tag_create model sample_repo (cstr "v1") sample_target sample_tagger
      (cstr "first release") false in
  ∃ oid odb',
    created.2 = Success oid
    ∧ @git_reference_name_to_id model (repo_refdb created.1)
        (cstr "refs/tags/v1") = Success oid
    ∧ repo_odb created.1 = Success odb'
    ∧ @git_odb_read model odb' oid
      = Success (GIT_OBJ_TAG, sample_buffer ++ [LF] ++ cstr "first release").
Proof.
  intros created.
  destruct (@tag_create_stores_annotation model sample_repo (cstr "v1")
              sample_target sample_tagger (cstr "first release") false
              created.1
              (model_content_id GIT_OBJ_TAG
                 (sample_buffer ++ [LF] ++ cstr "first release")))
    as (Hbound & odb' & Hodb & Hread).
  - apply model_odb_write_read.
  - apply model_reference_bound.
  - reflexivity.
  - eexists _, odb'. split; [reflexivity|]. split; [exact Hbound|].
    split; [exact Hodb|exact Hread].
Defined.

Lemma create_frombuffer_exists_witness :
  @git_tag_create_frombuffer model tagged_repo sample_buffer false
  = (tagged_repo,
     Failure GIT_EEXISTS (giterr_set GITERR_TAG "Tag already exists")).
Proof.
  apply (@create_frombuffer_exists model tagged_repo sample_buffer
           (<[sample_id := (GIT_OBJ_COMMIT, cstr "tree 89ab")]>
              (<[other_id := (GIT_OBJ_TREE, cstr "")]> ∅))
           (@Build_git_tag model sample_id GIT_OBJ_COMMIT (Some (cstr "v1"))
              (Some sample_tagger) None)
           (cstr "v1") (cstr "tree 89ab") sample_id); reflexivity.
Defined.

Lemma create_frombuffer_binds_name_witness :
  ∃ tag name,
    @tag_parse model (@git_tag_zero model) sample_buffer = (tag, Success ())
    ∧ tag_name tag = Some name ∧ (LF ∉ name)
    ∧ @git_reference_name_to_id model
        (repo_refdb
           (@git_tag_create_frombuffer model sample_repo sample_buffer false).1)
        (GIT_REFS_TAGS_DIR ++ name)
      = Success (model_content_id GIT_OBJ_TAG sample_buffer).
Proof.
  apply (@create_frombuffer_binds_name model sample_repo sample_buffer false).
  - apply model_reference_bound.
  - reflexivity.
Defined.

Lemma create_frombuffer_like_create_witness :
  @git_tag_create_frombuffer model sample_repo
    (@tag_annotation_buffer model (cstr "v1") sample_target sample_tagger
       (cstr "first release")) false
  = @git_tag_create model sample_repo (cstr "v1") sample_target sample_tagger
      (cstr "first release") false.
Proof.
  apply (@create_frombuffer_like_create model sample_repo (cstr "v1")
           sample_target sample_tagger (cstr "first release") false
           (@git_tag_create model sample_repo (cstr "v1") sample_target
              sample_tagger (cstr "first release") false).1
           (model_content_id GIT_OBJ_TAG
              (sample_buffer ++ [LF] ++ cstr "first release"))
           (<[sample_id := (GIT_OBJ_COMMIT, cstr "tree 89ab")]>
              (<[other_id := (GIT_OBJ_TREE, cstr "")]> ∅))
           (cstr "tree 89ab")).
  - reflexivity.
  - reflexivity.
  - reflexivity.
  - intros data type. by eexists.
  - reflexivity.
Defined.

Lemma tag_foreach_visits_tags_witness :
  @git_tag_foreach model _ catalog_repo collect_cb []
  = ([(cstr "refs/tags/v1.1", sample_id); (cstr "refs/tags/v2.0", other_id);
      (cstr "refs/tags/v1.0", sample_id)], 0).
Proof.
  rewrite (@tag_foreach_visits_tags model _ catalog_repo collect_cb []
             (map_to_list (repo_refdb catalog_repo)).*1 eq_refl).
  by vm_compute.
Defined.

Lemma tag_foreach_zero_witness :
  ∃ names,
    @git_reference_names model (repo_refdb catalog_repo) = Success names
    ∧ ∀ ref, ref ∈ names → git__prefixcmp ref GIT_REFS_TAGS_DIR = 0 →
        ∃ oid data,
          @git_reference_name_to_id model (repo_refdb catalog_repo) ref
          = Success oid
          ∧ (collect_cb ref oid data).2 = 0.
Proof.
  apply (@tag_foreach_zero model _ catalog_repo collect_cb []).
  - intros code e Hfail. discriminate Hfail.
  - intros ref code e. apply model_resolve_code.
  - by vm_compute.
Defined.

Lemma tag_foreach_stops_witness :
  (@git_tag_foreach model _ catalog_repo stop_cb []).2 = 7
  ∧ (@git_tag_foreach model _ dangling_repo collect_cb []).2 = GIT_ENOTFOUND.
Proof.
  split.
  - apply (@tag_foreach_stops model _ catalog_repo stop_cb []
             [cstr "refs/heads/v1.9"]
             [cstr "refs/tags/v2.0"; cstr "refs/tags/v1.0"]
             (cstr "refs/tags/v1.1") 7).
    + by vm_compute.
    + intros r Hin Htag. apply list_elem_of_singleton in Hin as ->.
      by vm_compute in Htag.
    + by vm_compute.
    + done.
    + right. by exists sample_id.
  - apply (@tag_foreach_stops model _ dangling_repo collect_cb [] []
             [cstr "refs/tags/v1"] (cstr "refs/tags/broken") GIT_ENOTFOUND).
    + by vm_compute.
    + intros r Hin. by apply elem_of_nil in Hin.
    + by vm_compute.
    + done.
    + left. by exists model_ref_not_found.
Defined.

Lemma tag_list_match_NoDup_witness :
  NoDup (@git_tag_list_match model (cstr "v1.*") catalog_repo).1
  ∧ (length (@git_tag_list_match model (cstr "v1.*") catalog_repo).1 ≤ 4)%nat.
Proof.
  apply (@tag_list_match_NoDup model catalog_repo (cstr "v1.*")
           (map_to_list (repo_refdb catalog_repo)).*1 eq_refl).
  - tags_resolve.
  - apply (NoDup_fst_map_to_list (M:=gmap bytes)).
Defined.

Lemma tag_list_match_sublist_witness :
  (@git_tag_list_match model (cstr "v1.*") catalog_repo).1
    `sublist_of` (@git_tag_list model catalog_repo).1.
Proof.
  apply (@tag_list_match_sublist model catalog_repo (cstr "v1.*")
           (map_to_list (repo_refdb catalog_repo)).*1 eq_refl).
  tags_resolve.
Defined.

Lemma tag_created_is_listed_witness :
  cstr "v1" ∈ (@git_tag_list model tagged_repo).1.
Proof.
  apply (@tag_created_is_listed model sample_repo (cstr "v1") sample_target
           None false tagged_repo sample_id
           (map_to_list (repo_refdb tagged_repo)).*1).
  - apply model_created_is_enumerated.
  - reflexivity.
  - reflexivity.
  - tags_resolve.
Defined.

Lemma tag_deleted_is_not_listed_witness :
  cstr "v1.0" ∉ (@git_tag_list model
                   (@git_tag_delete model catalog_repo (cstr "v1.0")).1).1.
Proof.
  apply (@tag_deleted_is_not_listed model catalog_repo (cstr "v1.0")
           (@git_tag_delete model catalog_repo (cstr "v1.0")).1
           (map_to_list
              (repo_refdb
                 (@git_tag_delete model catalog_repo (cstr "v1.0")).1)).*1).
  - apply model_deleted_is_not_enumerated.
  - reflexivity.
  - reflexivity.
  - tags_resolve.
Defined.

Lemma create_frombuffer_failure_codes_witness :
  @git_tag_create_frombuffer model empty_repo sample_buffer false
  = (empty_repo, Failure (-1) model_odb_not_found)
  ∧ ((-1 = -1 ∨ -1 = GIT_EEXISTS)
     ∧ repo_refdb empty_repo = repo_refdb empty_repo
     ∨ ∃ ref_name oid,
         @git_reference_create model (repo_refdb empty_repo) ref_name oid false
         = (repo_refdb empty_repo, Failure (-1) model_odb_not_found)).
Proof.
  split; [reflexivity|].
  apply (@create_frombuffer_failure_codes model empty_repo sample_buffer false
           empty_repo (-1) model_odb_not_found).
  reflexivity.
Defined.

Lemma parse_header_accepts_iff_witness :
  @parse_header model (@git_tag_zero model) plain_buffer
  = (@Build_git_tag model sample_id GIT_OBJ_COMMIT (Some (cstr "v1")) None None,
     Success (LF :: cstr "note")).
Proof.
  apply (@parse_header_accepts_iff model).
  exists sample_id, GIT_OBJ_COMMIT, (cstr "commit" ++ [LF]), (cstr "v1").
  split; [reflexivity|]. split; [apply list_elem_of_here|].
  split; [no_newline|reflexivity].
Defined.

Lemma tag_create_lightweight_frame_witness :
  repo_odb tagged_repo = repo_odb sample_repo
  ∧ (@git_tag_create_lightweight model sample_repo (cstr "v1") sample_target
       false).2 = Success sample_id.
Proof.
  split.
  - apply (proj1 (@tag_create_lightweight_frame model sample_repo (cstr "v1")
                    sample_target false)).
  - reflexivity.
Defined.

Lemma tag_annotation_create_frame_witness :
  let out :=
    @git_tag_annotation_create model sample_repo (cstr "v1") sample_target
      sample_tagger (cstr "first release") in
  repo_refdb out.1 = repo_refdb sample_repo
  ∧ @git_reference_name_to_id model (repo_refdb out.1) (cstr "refs/tags/v1")
    = Failure GIT_ENOTFOUND model_ref_not_found.
Proof.
  intros out. split.
  - apply (proj1 (@tag_annotation_create_frame model sample_repo (cstr "v1")
                    sample_target sample_tagger (cstr "first release"))).
  - reflexivity.
Defined.

Lemma tag_create_reference_frame_witness :
  @git_tag_create_lightweight model sample_repo (cstr "v1")
    (@Build_git_object model sample_id GIT_OBJ_COMMIT 2) true
  = (sample_repo,
     Failure (-1) (giterr_set GITERR_INVALID
                     "The given target does not belong to this repository")).
Proof.
  apply (proj1 (@tag_create_reference_frame model sample_repo (cstr "v1")
                  (@Build_git_object model sample_id GIT_OBJ_COMMIT 2) None
                  true)).
  by vm_compute.
Defined.

(** * What the parser can store, and creation read back *)

Section Stored.
  Context `{Collaborators}.

Lemma match_tag_type_stored entries tag buffer :
  let out := (match_tag_type entries tag buffer).1 in
  tag_name out = tag_name tag
  ∧ (type out = type tag ∨ type out ∈ map fst entries).
Proof.
  induction entries as [|[i n] entries IH]; cbn [match_tag_type].
  - by split; [|left].
  - case_decide; [by split; [|left]|].
    case_decide.
    + split; [done|]. right. apply list_elem_of_here.
    + destruct IH as [Hname [Htype|Htype]]; (split; [done|]).
      * by left.
      * right. by apply list_elem_of_further.
Qed.

Lemma parse_type_field_stored tag buffer :
  let out := (parse_type_field tag buffer).1 in
  tag_name out = tag_name tag
  ∧ (type out = type tag
     ∨ type out ∈ [GIT_OBJ_BAD; GIT_OBJ_COMMIT; GIT_OBJ_TREE; GIT_OBJ_BLOB;
                   GIT_OBJ_TAG]).
Proof.
  unfold parse_type_field.
  case_decide; [by split; [|left]|].
  case_decide; [by split; [|left]|].
  pose proof (match_tag_type_stored tag_types (set_type GIT_OBJ_BAD tag)
                (drop 5 buffer)) as [Hname Htype].
  destruct (match_tag_type _ _ _) as [tag' [buffer'|code e]]; cbn [fst] in *.
  all: try case_decide; cbn [fst].
  all: split; [done|]; right.
  all: destruct Htype as [->|Htype];
    [apply list_elem_of_here|by apply list_elem_of_further].
Qed.

Lemma parse_tag_field_stored tag buffer :
  let out := (parse_tag_field tag buffer).1 in
  type out = type tag
  ∧ (tag_name out = tag_name tag ∨ ∃ n, tag_name out = Some n ∧ LF ∉ n).
Proof.
  unfold parse_tag_field.
  case_decide; [by split; [|left]|].
  case_decide; [by split; [|left]|].
  destruct (memchr LF (drop 4 buffer)) as [text_len|] eqn:Hlen;
    [|by split; [|left]].
  split; [done|]. right. eexists. split; [done|].
  by apply memchr_Some in Hlen as [? _].
Qed.

(** What [tag_parse] leaves in the name and the type of the record. *)
Lemma tag_parse_stored tag buffer :
  let out := (tag_parse tag buffer).1 in
  (tag_name out = tag_name tag ∨ ∃ n, tag_name out = Some n ∧ LF ∉ n)
  ∧ (type out = type tag
     ∨ type out ∈ [GIT_OBJ_BAD; GIT_OBJ_COMMIT; GIT_OBJ_TREE; GIT_OBJ_BLOB;
                   GIT_OBJ_TAG]).
Proof.
  assert (∀ tag1 b,
            let out := (and_then parse_tagger_field parse_message_field
                          tag1 b).1 in
            tag_name out = tag_name tag1 ∧ type out = type tag1) as Htail.
  { intros tag1 b. unfold and_then.
    pose proof (parse_tagger_field_frame tag1 b) as (_ & Ht & Hn).
    destruct (parse_tagger_field tag1 b) as [tag2 [b2|code e]];
      cbn [fst] in *; [|done].
    pose proof (parse_message_field_frame tag2 b2) as (_ & Ht' & Hn' & _).
    cbn zeta in *. by rewrite Hn', Ht'. }
  assert (let out := (parse_header tag buffer).1 in
          (tag_name out = tag_name tag ∨ ∃ n, tag_name out = Some n ∧ LF ∉ n)
          ∧ (type out = type tag
             ∨ type out ∈ [GIT_OBJ_BAD; GIT_OBJ_COMMIT; GIT_OBJ_TREE;
                           GIT_OBJ_BLOB; GIT_OBJ_TAG])) as Hhead.
  { unfold parse_header, and_then, parse_object_field.
    destruct (git_oid__parse _ _ _) as [oid [b1|]]; [|by split; left].
    pose proof (parse_type_field_stored (set_target oid tag) b1)
      as [Hn Ht].
    destruct (parse_type_field _ b1) as [tag2 [b2|code e]]; cbn [fst] in *.
    - pose proof (parse_tag_field_stored tag2 b2) as [Ht' Hn'].
      cbn zeta in *. rewrite Ht'. split; [|done].
      destruct Hn' as [->|Hn']; [by left|by right].
    - split; [by left|done]. }
  unfold tag_parse, and_then in *.
  destruct (parse_header tag buffer) as [tag1 [b1|code e]]; cbn [fst] in *;
    [|done].
  specialize (Htail tag1 b1). cbn zeta in Htail.
  destruct (parse_tagger_field tag1 b1) as [tag2 [b2|code e]]; cbn [fst] in *.
  - destruct (parse_message_field tag2 b2) as [tag3 [b3|code e]];
      cbn [fst] in *; destruct Htail as [-> ->]; done.
  - destruct Htail as [-> ->]; done.
Qed.

(** X20. [tag_parse] stores no name with a newline and no type outside the
    table: whatever the buffer and whether the call succeeds or fails, the
    name of the record is the one it held before or a name without newline,
    and its type is the one it held before, [GIT_OBJ_BAD], or one of
    commit, tree, blob and tag. *)
Theorem tag_parse_stores_valid_fields tag buffer :
  (tag_name (tag_parse tag buffer).1 = tag_name tag
   ∨ ∃ n, tag_name (tag_parse tag buffer).1 = Some n ∧ LF ∉ n)
  ∧ (type (tag_parse tag buffer).1 = type tag
     ∨ type (tag_parse tag buffer).1 ∈ [GIT_OBJ_BAD; GIT_OBJ_COMMIT;
          GIT_OBJ_TREE; GIT_OBJ_BLOB; GIT_OBJ_TAG]).
Proof. apply tag_parse_stored. Qed.

(** X21. A created tag reads back: on an object database that reads back
    what was written, and with object-id and signature parsers that read
    back what their writers produce, after [git_tag_create] succeeds for a
    name without newline and a target that is a commit, tree, blob or tag,
    the object read under the returned id is a tag object that
    [git_tag__parse] accepts, giving the target's id and type, the name,
    the tagger and the message of the call. *)
Theorem tag_create_then_parse (repo : git_repository) (name : bytes)
    (tgt : git_object) (sig : git_signature) (msg : bytes)
    (allow_ref_overwrite : bool) (repo' : git_repository) (oid : git_oid)
    (tag0 : git_tag) :
  (∀ odb data type odb' id,
     git_odb_write odb data type = (odb', Success id) →
     git_odb_read odb' id = Success (type, data)) →
  (∀ out rest,
     git_oid__parse out
       (git_oid__writebuf (cstr "object ") (git_object_id tgt) ++ rest)
       (cstr "object ") = (git_object_id tgt, Some rest)) →
  (∃ line, git_signature__writebuf (cstr "tagger ") sig = cstr "tagger " ++ line) →
  (∀ rest,
     git_signature__parse (git_signature__writebuf (cstr "tagger ") sig ++ rest)
       (cstr "tagger ") LF = (sig, inr rest)) →
  git_object_type tgt
    ∈ [GIT_OBJ_COMMIT; GIT_OBJ_TREE; GIT_OBJ_BLOB; GIT_OBJ_TAG] →
  LF ∉ name →
  git_tag_create repo name tgt sig msg allow_ref_overwrite
  = (repo', Success oid) →
  ∃ odb' obj,
    repo_odb repo' = Success odb'
    ∧ git_odb_read odb' oid = Success obj
    ∧ obj.1 = GIT_OBJ_TAG
    ∧ git_tag__parse tag0 obj
      = (Build_git_tag (git_object_id tgt) (git_object_type tgt)
           (Some name) (Some sig) (Some msg), Success ()).
Proof.
  intros Hread Hoid Hline Hsig Htype Hname Hcreate.
  apply create_annotated_Success in Hcreate
    as (_ & odb & odb' & _ & Hwrite & Hodb' & _).
  apply Hread in Hwrite.
  exists odb', (GIT_OBJ_TAG, tag_annotation_buffer name tgt sig msg).
  split; [done|]. split; [done|]. split; [done|].
  unfold git_tag__parse. cbn [snd].
  rewrite tag_annotation_buffer_lines.
  unfold tag_parse, parse_header, and_then.
  unfold parse_object_field. rewrite Hoid.
  rewrite parse_type_field_line by (done || buffer_length).
  rewrite parse_tag_field_line by done.
  rewrite parse_tagger_field_line by done.
  unfold parse_message_field. by rewrite decide_False by (by intros []).
Qed.

(** X22. The name is not checked when an annotation is written:
    [git_tag_annotation_create] serializes a name that holds a newline as
    it is, and on an object database that reads back what was written the
    object stored under the returned id does not parse back to that name,
    whatever the parsers of ids and signatures do. *)
Theorem tag_annotation_newline_name (repo : git_repository) (name : bytes)
    (tgt : git_object) (sig : git_signature) (msg : bytes)
    (repo' : git_repository) (oid : git_oid) :
  (∀ odb data type odb' id,
     git_odb_write odb data type = (odb', Success id) →
     git_odb_read odb' id = Success (type, data)) →
  LF ∈ name →
  git_tag_annotation_create repo name tgt sig msg = (repo', Success oid) →
  ∃ odb' obj,
    repo_odb repo' = Success odb'
    ∧ git_odb_read odb' oid = Success obj
    ∧ obj = (GIT_OBJ_TAG, tag_annotation_buffer name tgt sig msg)
    ∧ tag_name (git_tag__parse git_tag_zero obj).1 ≠ Some name.
Proof.
  intros Hread Hname Hcreate.
  unfold git_tag_annotation_create, write_tag_annotation,
    git_repository_odb__weakptr in Hcreate.
  destruct (repo_odb repo) as [odb|code e]; [|done].
  destruct (git_odb_write _ _ _) as [odb' [id|code e]] eqn:Hwrite; [|done].
  injection Hcreate as <- <-.
  apply Hread in Hwrite.
  exists odb', (GIT_OBJ_TAG, tag_annotation_buffer name tgt sig msg).
  split; [done|]. split; [done|]. split; [done|].
  unfold git_tag__parse. cbn [snd].
  destruct (tag_parse_stored git_tag_zero
              (tag_annotation_buffer name tgt sig msg))
    as [[Hzero|(n & Hn & Hfree)] _].
  - rewrite Hzero. done.
  - rewrite Hn. intros [= ->]. done.
Qed.

End Stored.

Lemma tag_create_then_parse_witness :
  let created :=
    @git_tag_create model sample_repo (cstr "v1") sample_target sample_tagger
      (cstr "first release") false in
  ∃ oid odb' obj,
    created.2 = Success oid
    ∧ repo_odb created.1 = Success odb'
    ∧ @git_odb_read model odb' oid = Success obj
    ∧ obj.1 = GIT_OBJ_TAG
    ∧ @git_tag__parse model (@git_tag_zero model) obj
      = (@Build_git_tag model sample_id GIT_OBJ_COMMIT (Some (cstr "v1"))
           (Some sample_tagger) (Some (cstr "first release")), Success ()).
Proof.
  intros created.
  destruct (@tag_create_then_parse model sample_repo (cstr "v1")
              sample_target sample_tagger (cstr "first release") false
              created.1
              (model_content_id GIT_OBJ_TAG
                 (sample_buffer ++ [LF] ++ cstr "first release"))
              (@git_tag_zero model))
    as (odb' & obj & Hodb & Hread & Htype & Hparse).
  - apply model_odb_write_read.
  - intros out rest. by apply model_oid_roundtrip.
  - by eexists.
  - intros rest. apply model_signature_roundtrip; no_newline.
  - apply list_elem_of_here.
  - no_newline.
  - reflexivity.
  - exists (model_content_id GIT_OBJ_TAG
              (sample_buffer ++ [LF] ++ cstr "first release")), odb', obj.
    split; [reflexivity|]. split; [exact Hodb|]. split; [exact Hread|].
    split; [exact Htype|exact Hparse].
Defined.

Lemma tag_annotation_newline_name_witness :
  let created :=
    @git_tag_annotation_create model sample_repo newline_name sample_target
      sample_tagger (cstr "note") in
  ∃ oid odb' obj,
    created.2 = Success oid
    ∧ repo_odb created.1 = Success odb'
    ∧ @git_odb_read model odb' oid = Success obj
    ∧ tag_name (@git_tag__parse model (@git_tag_zero model) obj).1
      ≠ Some newline_name.
Proof.
  intros created.
  destruct (@tag_annotation_newline_name model sample_repo newline_name
              sample_target sample_tagger (cstr "note") created.1
              (model_content_id GIT_OBJ_TAG
                 (@tag_annotation_buffer model newline_name sample_target
                    sample_tagger (cstr "note"))))
    as (odb' & obj & Hodb & Hread & _ & Hparse).
  - apply model_odb_write_read.
  - unfold newline_name. rewrite !elem_of_app, elem_of_cons. tauto.
  - reflexivity.
  - eexists _, odb', obj.
    split; [reflexivity|]. split; [exact Hodb|]. split; [exact Hread|].
    exact Hparse.
Defined.
